(** * RandomArt: the drunken-bishop visualiser of [randomart.py]

    A shallow embedding of [hex_to_dirs], [get_coin_sym] and the class
    [RandomArt] ([__init__], [__call__], [get_position], [get_room], [display]),
    together with the Python built-ins they call, and the properties
    of the walk, the sentinel cells and the rendered text.

    Python [int] is unbounded, so integers are [Z].  A Python [str] is
    modelled as a [string] whose characters are the code points 0..255;
    a [Counter] and a [dict] are finite maps ([gmap]); an exception is a
    value of [exn] carried by [result].  Characters beyond code point 255
    (among them the decimal digits and the white space of other scripts,
    which [int] reads too) are outside the model, and so is running out of
    memory or of index range when a string is built. *)

From Stdlib Require Import ZArith Ascii String List Lia Bool.
From stdpp Require Import base option list gmap strings.

Local Open Scope Z_scope.

(** ** Exceptions *)

Inductive exn : Set := AssertionError | ValueError | KeyError.

Inductive result (A : Type) : Type :=
| Ok (a : A)
| Raise (e : exn).
Arguments Ok {A} a.
Arguments Raise {A} e.

Definition bind {A B} (r : result A) (k : A -> result B) : result B :=
  match r with
  | Ok a => k a
  | Raise e => Raise e
  end.

Notation "x <-- r ;; k" := (bind r (fun x => k))
  (at level 100, r at next level, right associativity).

(** A loop (or comprehension) whose body may raise: the first exception
    ends it. *)
Fixpoint for_each {A B} (f : A -> result B) (l : list A) : result (list B) :=
  match l with
  | [] => Ok []
  | a :: l' => b <-- f a ;; bs <-- for_each f l' ;; Ok (b :: bs)
  end.

Definition succeeds {A} (r : result A) : Prop := exists a, r = Ok a.
Definition fails {A} (r : result A) : Prop := exists e, r = Raise e.

#[global] Instance exn_eq_dec : EqDecision exn.
Proof. solve_decision. Defined.

#[global] Instance result_eq_dec {A} `{EqDecision A} : EqDecision (result A).
Proof. solve_decision. Defined.

(** ** The Python built-ins the program calls *)

Module Py.

Definition code (c : ascii) : Z := Z.of_N (N_of_ascii c).

Definition newline : ascii := ascii_of_nat 10.

(** [len(s)] *)
Definition len (s : string) : Z := Z.of_nat (String.length s).

(** [c * n] for a one-character string [c]: empty when [n <= 0]. *)
Fixpoint replicate_char (n : nat) (c : ascii) : string :=
  match n with
  | O => EmptyString
  | S n' => String c (replicate_char n' c)
  end.

Definition str_mul (c : ascii) (n : Z) : string := replicate_char (Z.to_nat n) c.

(** [s[n:]] *)
Fixpoint drop_str (n : nat) (s : string) : string :=
  match n, s with
  | S n', String _ r => drop_str n' r
  | _, _ => s
  end.

(** [[s[i:i + 2] for i in range(0, len(s), 2)]] *)
Fixpoint slices2 (s : string) : list string :=
  match s with
  | EmptyString => []
  | String a EmptyString => [String a EmptyString]
  | String a (String b r) => String a (String b EmptyString) :: slices2 r
  end.

(** [range(n)] *)
Definition range (n : Z) : list Z := seqZ 0 n.

(** *** [int(s, 16)]

    CPython first maps every non-ASCII white-space character to a blank
    and every other non-ASCII character that is not a decimal digit to
    ['?'] (code points 128..255 hold two white-space characters, U+0085
    and U+00A0, and no decimal digit); it then reads blanks, a sign, an
    optional [0x] prefix, hexadecimal digits with single underscores
    between them, and blanks. *)

Definition is_c_space (c : ascii) : bool :=
  ((9 <=? code c) && (code c <=? 13)) || (code c =? 32).

Definition to_ascii_space (c : ascii) : ascii :=
  if code c <? 127 then c
  else if (code c =? 133) || (code c =? 160) then " "%char
  else "?"%char.

Fixpoint map_str (f : ascii -> ascii) (s : string) : string :=
  match s with
  | EmptyString => EmptyString
  | String c r => String (f c) (map_str f r)
  end.

Fixpoint skip_spaces (s : string) : string :=
  match s with
  | String c r => if is_c_space c then skip_spaces r else s
  | EmptyString => EmptyString
  end.

Definition digit_value (c : ascii) : Z :=
  let n := code c in
  if (48 <=? n) && (n <=? 57) then n - 48
  else if (97 <=? n) && (n <=? 122) then n - 87
  else if (65 <=? n) && (n <=? 90) then n - 55
  else 37.

(** The digit loop: [prev_us] records that the previous character was an
    underscore; the result is the value read and the unread rest. *)
Fixpoint scan_digits (prev_us : bool) (acc : Z) (s : string) : option (Z * string) :=
  match s with
  | String c r =>
      if Ascii.eqb c "_" then
        if prev_us then None else scan_digits true acc r
      else if digit_value c <? 16 then scan_digits false (16 * acc + digit_value c) r
      else if prev_us then None else Some (acc, s)
  | EmptyString => if prev_us then None else Some (acc, EmptyString)
  end.

Definition int16 (s : string) : result Z :=
  let s := skip_spaces (map_str to_ascii_space s) in
  let '(sign, s) :=
    match s with
    | String c r =>
        if Ascii.eqb c "+" then (1, r)
        else if Ascii.eqb c "-" then (-1, r)
        else (1, s)
    | EmptyString => (1, s)
    end in
  let s :=
    match s with
    | String c0 (String c1 r) =>
        if Ascii.eqb c0 "0" && (Ascii.eqb c1 "x" || Ascii.eqb c1 "X") then
          match r with
          | String u r' => if Ascii.eqb u "_" then r' else r
          | EmptyString => r
          end
        else s
    | _ => s
    end in
  match s with
  | String u _ =>
      if Ascii.eqb u "_" then Raise ValueError
      else
        match scan_digits false 0 s with
        | None => Raise ValueError
        | Some (v, rest) =>
            if (String.length rest =? String.length s)%nat then Raise ValueError
            else
              match skip_spaces rest with
              | EmptyString => Ok (sign * v)
              | String _ _ => Raise ValueError
              end
        end
  | EmptyString => Raise ValueError
  end.

(** *** [bin(n)] *)
Fixpoint bin_pos (p : positive) : string :=
  match p with
  | xH => "1"
  | xO q => bin_pos q +:+ "0"
  | xI q => bin_pos q +:+ "1"
  end.

Definition bin (n : Z) : string :=
  match n with
  | Z0 => "0b0"
  | Zpos p => "0b" +:+ bin_pos p
  | Zneg p => "-0b" +:+ bin_pos p
  end.

(** *** [s.zfill(width)]: zeros on the left, after a leading sign. *)
Definition zfill (s : string) (width : Z) : string :=
  if width <=? len s then s
  else
    let fill := str_mul "0" (width - len s) in
    match s with
    | String c r =>
        if Ascii.eqb c "+" || Ascii.eqb c "-" then String c (fill +:+ r)
        else fill +:+ s
    | EmptyString => fill
    end.

(** *** [s.center(width, fillchar)]: the string itself when it is already
    [width] long or longer. *)
Definition center (s : string) (width : Z) (fillchar : ascii) : string :=
  if width <=? len s then s
  else
    let marg := width - len s in
    let left := marg / 2 + Z.land (Z.land marg width) 1 in
    str_mul fillchar left +:+ s +:+ str_mul fillchar (marg - left).

(** *** [s.split('\n')] *)
Fixpoint split_lines (s : string) : list string :=
  match s with
  | EmptyString => [EmptyString]
  | String c r =>
      if Ascii.eqb c newline then EmptyString :: split_lines r
      else
        match split_lines r with
        | l :: ls => String c l :: ls
        | [] => [String c EmptyString]
        end
  end.

End Py.

(** ** Module-level constants *)

Definition Move : Type := Z * Z.

Definition NW : Move := (-1, -1).
Definition NE : Move := (1, -1).
Definition SW : Move := (-1, 1).
Definition SE : Move := (1, 1).

Definition DEFAULT_ROOM_SIZE : Z * Z := (17, 9).

(** ** [hex_to_dirs] *)

Definition direction_map : gmap string Move :=
  <["00" := NW]> (<["01" := NE]> (<["10" := SW]> (<["11" := SE]> ∅))).

(** [d[k]] on a [dict]: a missing key raises [KeyError]. *)
Definition dict_item {V} (d : gmap string V) (k : string) : result V :=
  match d !! k with
  | Some v => Ok v
  | None => Raise KeyError
  end.

(** The body of the first loop, for one two-character slice. *)
Definition bin_byte (pair : string) : result string :=
  decimal <-- Py.int16 pair ;;
  Ok (Py.zfill (Py.drop_str 2 (Py.bin decimal)) 8).

(** The body of the second loop, for one binary representation. *)
Definition byte_split (byte : string) : list string := rev (Py.slices2 byte).

Definition hex_to_dirs (hex_string : string) : result (list Move) :=
  if negb (Py.len hex_string mod 2 =? 0) then Raise AssertionError
  else
    bin_bytes <-- for_each bin_byte (Py.slices2 hex_string) ;;
    let pairs := concat (map byte_split bin_bytes) in
    for_each (dict_item direction_map) pairs.

(** ** [get_coin_sym] *)

Definition coin_table : gmap Z string :=
  list_to_map
    [ (0, " "); (1, "."); (2, "o"); (3, "+"); (4, "="); (5, "*"); (6, "B");
      (7, "O"); (8, "X"); (9, "@"); (10, "%"); (11, "&"); (12, "#");
      (13, "/"); (14, "^"); (15, "S"); (16, "E") ].

(** [d.get(coins, '!')] *)
Definition get_coin_sym (coins : Z) : string :=
  default "!" (coin_table !! coins).

(** ** class [RandomArt] *)

Record RandomArt : Type := mkRandomArt {
  hashalg : option string;
  room_size : Z * Z;
  start : Z * Z
}.

(** [__init__(self, hashalg='', room_size=DEFAULT_ROOM_SIZE, start=None)].
    The body holds no [raise] and no [assert]; it is written in [result]
    so that the outcome of a construction can be stated. *)
Definition __init__ (hashalg : option string) (room_size : Z * Z)
    (start : option (Z * Z)) : result RandomArt :=
  Ok {| hashalg := hashalg;
        room_size := room_size;
        start := match start with
                 | Some s => s
                 | None => (fst room_size / 2, snd room_size / 2)
                 end |}.

(** A [Counter]: reading a missing key gives 0 and stores nothing. *)
Definition counter_get (room : gmap (Z * Z) Z) (k : Z * Z) : Z :=
  default 0 (room !! k).

Section Methods.

Variable self : RandomArt.

Definition get_position (position : Z * Z) (move : Move) : Z * Z :=
  let '(x, y) := position in
  let '(dir_x, dir_y) := move in
  let '(max_x, max_y) := (fst (room_size self) - 1, snd (room_size self) - 1) in
  let '(new_x, new_y) := (x + dir_x, y + dir_y) in
  let new_x := Z.min new_x max_x in
  let new_y := Z.min new_y max_y in
  let new_x := Z.max new_x 0 in
  let new_y := Z.max new_y 0 in
  (new_x, new_y).

(** The body of the loop of [get_room], on the pair of the loop's variables
    [room] and [current_position]. *)
Definition walk_step (st : gmap (Z * Z) Z * (Z * Z)) (direction : Move)
    : gmap (Z * Z) Z * (Z * Z) :=
  let '(room, current_position) := st in
  let current_position := get_position current_position direction in
  (<[current_position := counter_get room current_position + 1]> room,
   current_position).

Definition walk (directions : list Move) : gmap (Z * Z) Z * (Z * Z) :=
  fold_left walk_step directions (∅, start self).

(** The positions the loop assigns to [current_position], in order. *)
Fixpoint positions (current_position : Z * Z) (directions : list Move)
    : list (Z * Z) :=
  match directions with
  | [] => []
  | direction :: rest =>
      let p := get_position current_position direction in
      p :: positions p rest
  end.

(** [get_room] together with the last value of [current_position]. *)
Definition get_room_end (hex_string : string)
    : result (gmap (Z * Z) Z * (Z * Z)) :=
  directions <-- hex_to_dirs hex_string ;;
  let '(room, current_position) := walk directions in
  let room := <[start self := 15]> room in
  let room := <[current_position := 16]> room in
  Ok (room, current_position).

Definition get_room (hex_string : string) : result (gmap (Z * Z) Z) :=
  r <-- get_room_end hex_string ;; Ok (fst r).

Definition display (room : gmap (Z * Z) Z) : string :=
  let '(room_x, room_y) := room_size self in
  let bottom :=
    match hashalg self with
    | Some h =>
        if negb (String.eqb h "") then
          "+" +:+ Py.center ("[" +:+ h +:+ "]") room_x "-" +:+ "+"
        else "+" +:+ Py.str_mul "-" room_x +:+ "+"
    | None => "+" +:+ Py.str_mul "-" room_x +:+ "+"
    end in
  let top := "+" +:+ Py.str_mul "-" room_x +:+ "+" +:+ String Py.newline "" in
  let string := "" in
  let string := string +:+ top in
  let string :=
    fold_left
      (fun string y =>
         let string := string +:+ "|" in
         let string :=
           fold_left
             (fun string x => string +:+ get_coin_sym (counter_get room (x, y)))
             (Py.range room_x) string in
         string +:+ "|" +:+ String Py.newline "")
      (Py.range room_y) string in
  string +:+ bottom.

(** [__call__] *)
Definition __call__ (hex_string : string) : result string :=
  room <-- get_room hex_string ;; Ok (display room).

End Methods.

(** The character shown for cell [(x, y)] in a rendered text: line [y + 1],
    column [x + 1], each line of a [w]-wide room taking [w + 3] characters
    with its newline. *)
Definition cell_char (w : Z) (text : string) (x y : Z) : option ascii :=
  String.get (Z.to_nat ((y + 1) * (w + 3) + (x + 1))) text.

(** * Notions used by the statements *)

(** ** Text *)

(** Concatenation of a list of strings: what a loop of [+=] builds. *)
Fixpoint cat (l : list string) : string :=
  match l with
  | [] => ""
  | s :: l' => s +:+ cat l'
  end.

(** A string that [split('\n')] leaves whole. *)
Definition no_newline (s : string) : Prop :=
  forall n, String.get n s <> Some Py.newline.

(** The glyph table of the specification, written as a case distinction. *)
Definition glyph_table (count : Z) : string :=
  match count with
  | 0 => " " | 1 => "." | 2 => "o" | 3 => "+" | 4 => "=" | 5 => "*"
  | 6 => "B" | 7 => "O" | 8 => "X" | 9 => "@" | 10 => "%" | 11 => "&"
  | 12 => "#" | 13 => "/" | 14 => "^" | 15 => "S" | 16 => "E"
  | _ => "!"
  end.

(** The border without a label. *)
Definition border (width : Z) : string := "+" +:+ Py.str_mul "-" width +:+ "+".

(** The last line [display] writes. *)
Definition bottom_line (self : RandomArt) : string :=
  match hashalg self with
  | Some label =>
      if negb (String.eqb label "") then
        "+" +:+ Py.center ("[" +:+ label +:+ "]") (fst (room_size self)) "-" +:+ "+"
      else border (fst (room_size self))
  | None => border (fst (room_size self))
  end.

(** The glyph of cell [(x, y)]. *)
Definition glyph_at (room : gmap (Z * Z) Z) (y x : Z) : string :=
  get_coin_sym (counter_get room (x, y)).

(** Line [y + 1] of the text: the cells of row [y] between two bars. *)
Definition body_row (self : RandomArt) (room : gmap (Z * Z) Z) (y : Z) : string :=
  "|" +:+ cat (map (glyph_at room y) (Py.range (fst (room_size self)))) +:+ "|".

(** The lines [display] joins, the last one excepted. *)
Definition upper_lines (self : RandomArt) (room : gmap (Z * Z) Z) : list string :=
  border (fst (room_size self))
  :: map (body_row self room) (Py.range (snd (room_size self))).

(** A line with the newline that ends it. *)
Definition end_line (s : string) : string := s +:+ String Py.newline "".

(** The label, when there is one, fits between the corners and holds no
    newline. *)
Definition label_fits (self : RandomArt) : Prop :=
  match hashalg self with
  | Some label =>
      label = "" \/ (Py.len label + 2 <= fst (room_size self) /\ no_newline label)
  | None => True
  end.

(** [display] takes the branch without label: [hashalg] is [None] or
    empty. *)
Definition unlabelled (self : RandomArt) : Prop :=
  hashalg self = None \/ hashalg self = Some "".

(** ** Cells and moves *)

(** [0 <= x < width] and [0 <= y < height]. *)
Definition in_room (self : RandomArt) (p : Z * Z) : Prop :=
  0 <= fst p < fst (room_size self) /\ 0 <= snd p < snd (room_size self).

(** One of the four values of [direction_map]. *)
Definition is_move (m : Move) : Prop := m = NW \/ m = NE \/ m = SW \/ m = SE.

(** The four corner cells of the room. *)
Definition is_corner (self : RandomArt) (p : Z * Z) : Prop :=
  (fst p = 0 \/ fst p = fst (room_size self) - 1) /\
  (snd p = 0 \/ snd p = snd (room_size self) - 1).

(** The candidate coordinate [c + d] falls outside [0 .. dimension - 1]. *)
Definition clamped (c d dimension : Z) : Prop := c + d < 0 \/ dimension - 1 < c + d.

(** ** Decoding *)

Definition is_ok {A} (r : result A) : bool :=
  match r with Ok _ => true | Raise _ => false end.

(** What the three loops of [hex_to_dirs] do to one slice. *)
Definition decode_chunk (pair : string) : result (list Move) :=
  byte <-- bin_byte pair ;;
  for_each (dict_item direction_map) (byte_split byte).

(** The three loops of [hex_to_dirs], after the assertion. *)
Definition decode_chunks (chunks : list string) : result (list Move) :=
  bin_bytes <-- for_each bin_byte chunks ;;
  for_each (dict_item direction_map) (concat (map byte_split bin_bytes)).

(** A property checked on both booleans, and on all 256 characters. *)
Definition forall_bool (P : bool -> bool) : bool := P true && P false.

Definition forall_ascii (P : ascii -> bool) : bool :=
  forall_bool (fun b0 => forall_bool (fun b1 => forall_bool (fun b2 =>
  forall_bool (fun b3 => forall_bool (fun b4 => forall_bool (fun b5 =>
  forall_bool (fun b6 => forall_bool (fun b7 =>
    P (Ascii b0 b1 b2 b3 b4 b5 b6 b7))))))))).

(** *** The reference decoder, after the words of the specification *)

(** The place of a character in a string of digits. *)
Fixpoint index_of (c : ascii) (digits : string) : option Z :=
  match digits with
  | EmptyString => None
  | String d rest =>
      if Ascii.eqb c d then Some 0 else Z.succ <$> index_of c rest
  end.

(** The value of a hex digit, 0-9, a-f or A-F. *)
Definition hex_digit (c : ascii) : option Z :=
  match index_of c "0123456789abcdef" with
  | Some v => Some v
  | None => index_of c "0123456789ABCDEF"
  end.

Definition is_hex_digit (c : ascii) : bool :=
  match hex_digit c with Some _ => true | None => false end.

Fixpoint all_hex (s : string) : bool :=
  match s with
  | EmptyString => true
  | String c r => is_hex_digit c && all_hex r
  end.

(** A valid hex string: even length, hex digits only. *)
Definition valid_hex (s : string) : Prop :=
  Py.len s mod 2 = 0 /\ all_hex s = true.

(** The byte as 8 bits, most significant first. *)
Definition bits8 (v : Z) : list bool := map (Z.testbit v) [7; 6; 5; 4; 3; 2; 1; 0].

(** Consecutive 2-bit groups. *)
Fixpoint groups2 (bits : list bool) : list (bool * bool) :=
  match bits with
  | hi :: lo :: rest => (hi, lo) :: groups2 rest
  | _ => []
  end.

(** 00 -> NW, 01 -> NE, 10 -> SW, 11 -> SE. *)
Definition move_of_group (g : bool * bool) : Move :=
  match g with
  | (false, false) => NW
  | (false, true) => NE
  | (true, false) => SW
  | (true, true) => SE
  end.

(** The four groups of a byte, in reversed order, as moves. *)
Definition byte_moves (v : Z) : list Move :=
  map move_of_group (rev (groups2 (bits8 v))).

(** The reference decoder: the string is cut left to right into bytes of
    two characters; each byte gives its four moves, which are appended in
    that order. *)
Fixpoint reference_decode (s : string) : option (list Move) :=
  match s with
  | EmptyString => Some []
  | String _ EmptyString => None
  | String a (String b r) =>
      match hex_digit a, hex_digit b, reference_decode r with
      | Some x, Some y, Some ms => Some (byte_moves (16 * x + y) ++ ms)
      | _, _, _ => None
      end
  end.

(** *** The slices [int(pair, 16)] does not take

    [int(chunk, 16)] raises, or returns a negative number. *)
Definition slice_fails (chunk : string) : Prop :=
  (exists e, Py.int16 chunk = Raise e) \/
  (exists v, Py.int16 chunk = Ok v /\ v < 0).

Definition slice_fails_b (chunk : string) : bool :=
  match Py.int16 chunk with
  | Ok v => v <? 0
  | Raise _ => true
  end.

Definition pair_str (a b : ascii) : string := String a (String b "").

Definition moves_eqb (r : result (list Move)) (ms : list Move) : bool :=
  bool_decide (r = Ok ms).

(** * Further notions *)

(** ** Decoding *)

(** An ASCII capital letter as its small letter; any other character as
    itself. *)
Definition to_lower (c : ascii) : ascii :=
  if (65 <=? Py.code c) && (Py.code c <=? 90)
  then ascii_of_N (Z.to_N (Py.code c + 32))
  else c.

Definition lower_str (s : string) : string := Py.map_str to_lower s.

(** The digit values of the characters of a string. *)
Fixpoint hex_values (s : string) : list (option Z) :=
  match s with
  | EmptyString => []
  | String c r => hex_digit c :: hex_values r
  end.

Definition is_move_b (m : Move) : bool :=
  bool_decide (m = NW) || bool_decide (m = NE)
  || bool_decide (m = SW) || bool_decide (m = SE).

(** [int(pair, 16)] raises on the slice. *)
Definition int_rejects (chunk : string) : bool := negb (is_ok (Py.int16 chunk)).

(** The exception of [hex_to_dirs] by the order of its statements: the
    assertion, then the loop of [int], then the look-ups. *)
Definition first_exception (s : string) : exn :=
  if negb (Py.len s mod 2 =? 0) then AssertionError
  else if existsb int_rejects (Py.slices2 s) then ValueError
  else KeyError.

(** ** The walk *)

(** How often a cell occurs in a list of positions. *)
Definition occurrences (p : Z * Z) (ps : list (Z * Z)) : Z :=
  Z.of_nat (length (filter (fun q => q = p) ps)).

(** The sum of all counters of a room. *)
Definition total_count (room : gmap (Z * Z) Z) : Z :=
  map_fold (fun _ v acc => v + acc) 0 room.

(** ** The rendered text *)

(** The character occurs in the string. *)
Definition in_str (c : ascii) (s : string) : Prop :=
  exists n, String.get n s = Some c.

(** The characters [display] writes by itself: the newline, the border and
    the glyphs. *)
Definition display_alphabet : string := "+-| .o=*BOX@%&#/^SE!".

(** The largest index of a sequence ([sys.maxsize] of a 64-bit build): for
    a count outside [- index_max - 1 .. index_max] the repetition
    [str * int] raises [OverflowError] and builds no string. *)
Definition index_max : Z := 2 ^ 63 - 1.

(** The label with its brackets between dashes, [left] of them before and
    [right] after. *)
Definition labelled_border (left : Z) (label : string) (right : Z) : string :=
  "+" +:+ Py.str_mul "-" left +:+ "[" +:+ label +:+ "]"
  +:+ Py.str_mul "-" right +:+ "+".

(** ** [__main__] *)

Definition font_size : Z := 40.

(** The size given to [svgwrite.Drawing]. *)
Definition drawing_size : Z * Z := (font_size * 33 + 10, font_size * 17 + 10).

(** [enumerate(lines)] *)
Fixpoint enumerate_from {A} (i : Z) (l : list A) : list (Z * A) :=
  match l with
  | [] => []
  | a :: l' => (i, a) :: enumerate_from (i + 1) l'
  end.

(** The texts the script draws for a digest: for each line of the art the
    arguments of [dwg.text], the line and its insertion point. The digest
    is the hex digest of the input read; hashing and drawing are the work of
    [hashlib] and [svgwrite]. *)
Definition main_texts (digest : string) : result (list (string * (Z * Z))) :=
  r <-- __init__ None (31, 15) None ;;
  art <-- __call__ r digest ;;
  Ok (map (fun '(i, line) => (line, (0, (i + 1) * font_size)))
        (enumerate_from 0 (Py.split_lines art))).

(** * Properties *)

(** ** Strings *)

Lemma app_nil_str (t : string) : "" +:+ t = t.
Proof. reflexivity. Qed.

Lemma app_cons_str (c : ascii) (s t : string) :
  String c s +:+ t = String c (s +:+ t).
Proof. reflexivity. Qed.

Ltac simpl_str := repeat (rewrite ?app_cons_str, ?app_nil_str; simpl).

Section StringFacts.

Implicit Types (s t : string) (c : ascii) (n : nat).

Lemma app_empty_r s : s +:+ "" = s.
Proof. induction s as [|c s IH]; simpl_str; [done | by rewrite IH]. Qed.

Lemma app_assoc_str s t u : (s +:+ t) +:+ u = s +:+ (t +:+ u).
Proof. induction s as [|c s IH]; simpl_str; [done | by rewrite IH]. Qed.

Lemma length_app_str s t :
  String.length (s +:+ t) = (String.length s + String.length t)%nat.
Proof. induction s as [|c s IH]; simpl_str; [done | by rewrite IH]. Qed.

Lemma get_app_l s t n :
  (n < String.length s)%nat -> String.get n (s +:+ t) = String.get n s.
Proof.
  revert n; induction s as [|c s IH]; intros n Hn; simpl in *; [lia |].
  rewrite ?app_cons_str. destruct n as [|n]; simpl; [done | apply IH; lia].
Qed.

Lemma get_app_r s t n :
  String.get (String.length s + n) (s +:+ t) = String.get n t.
Proof. induction s as [|c s IH]; simpl_str; [done | exact IH]. Qed.

Lemma get_cons_S c s n : String.get (S n) (String c s) = String.get n s.
Proof. reflexivity. Qed.

Lemma length_replicate_char n c : String.length (Py.replicate_char n c) = n.
Proof. induction n as [|n IH]; simpl; [done | by rewrite IH]. Qed.

Lemma len_str_mul c (z : Z) : Py.len (Py.str_mul c z) = Z.max 0 z.
Proof. unfold Py.len, Py.str_mul. rewrite length_replicate_char. lia. Qed.

Lemma len_app s t : Py.len (s +:+ t) = Py.len s + Py.len t.
Proof. unfold Py.len. rewrite length_app_str. lia. Qed.

Lemma cat_app (l1 l2 : list string) : cat (l1 ++ l2) = cat l1 +:+ cat l2.
Proof.
  induction l1 as [|s l1 IH]; simpl; [done |].
  by rewrite IH, app_assoc_str.
Qed.

Lemma fold_left_append {A} (f : A -> string) (l : list A) (acc : string) :
  fold_left (fun str a => str +:+ f a) l acc = acc +:+ cat (map f l).
Proof.
  revert acc; induction l as [|a l IH]; intros acc; simpl.
  - by rewrite app_empty_r.
  - by rewrite IH, app_assoc_str.
Qed.

Lemma length_cat_uniform (l : list string) (k : nat) :
  Forall (fun s => String.length s = k) l ->
  String.length (cat l) = (length l * k)%nat.
Proof.
  induction 1 as [|s l Hs _ IH]; simpl; [done |].
  rewrite length_app_str, Hs, IH. lia.
Qed.

(** In a concatenation of strings of one length [k], character [j] of the
    [i]-th string sits at index [i * k + j]. *)
Lemma get_cat_uniform (l : list string) (k i j : nat) (s t : string) :
  Forall (fun s => String.length s = k) l ->
  l !! i = Some s ->
  (j < k)%nat ->
  String.get (i * k + j) (cat l +:+ t) = String.get j s.
Proof.
  intros Hl; revert i; induction Hl as [|s0 l Hs0 _ IH]; intros i Hi Hj.
  - done.
  - simpl. rewrite app_assoc_str. destruct i as [|i]; simpl in *.
    + injection Hi as ->. apply get_app_l. lia.
    + rewrite <- Hs0 at 1. rewrite <- Nat.add_assoc, get_app_r. by apply IH.
Qed.

Lemma no_newline_cons c s :
  no_newline (String c s) <-> c <> Py.newline /\ no_newline s.
Proof.
  split.
  - intros H; split.
    + intros ->. by apply (H 0%nat).
    + intros n. apply (H (S n)).
  - intros [Hc Hs] [|n]; simpl; [congruence | apply Hs].
Qed.

Lemma no_newline_empty : no_newline "".
Proof. by intros n. Qed.

Lemma no_newline_app s t : no_newline s -> no_newline t -> no_newline (s +:+ t).
Proof.
  induction s as [|c s IH]; simpl_str; intros Hs Ht; [done |].
  apply no_newline_cons in Hs as [Hc Hs]. apply no_newline_cons; auto.
Qed.

Lemma no_newline_replicate n c : c <> Py.newline -> no_newline (Py.replicate_char n c).
Proof.
  intros Hc; induction n as [|n IH]; simpl;
    [apply no_newline_empty | by apply no_newline_cons].
Qed.

Lemma split_lines_no_newline s : no_newline s -> Py.split_lines s = [s].
Proof.
  induction s as [|c s IH]; intros H; simpl; [done |].
  apply no_newline_cons in H as [Hc Hs].
  destruct (Ascii.eqb_spec c Py.newline) as [->|_]; [done |].
  by rewrite (IH Hs).
Qed.

Lemma split_lines_app s t :
  no_newline s ->
  Py.split_lines (s +:+ String Py.newline t) = s :: Py.split_lines t.
Proof.
  induction s as [|c s IH]; intros H; simpl_str.
  - reflexivity.
  - apply no_newline_cons in H as [Hc Hs].
    destruct (Ascii.eqb_spec c Py.newline) as [->|_]; [done |].
    by rewrite (IH Hs).
Qed.

Lemma split_lines_cat (l : list string) (t : string) :
  Forall no_newline l ->
  Py.split_lines (cat (map (fun s => s +:+ String Py.newline "") l) +:+ t)
  = l ++ Py.split_lines t.
Proof.
  induction 1 as [|s l Hs _ IH]; simpl; [done |].
  rewrite !app_assoc_str. simpl_str. rewrite split_lines_app by done. by rewrite IH.
Qed.

End StringFacts.

(** ** The glyph table *)

Lemma glyph_table_outside (count : Z) :
  ~ (0 <= count <= 16) -> glyph_table count = "!".
Proof.
  intros H. destruct count as [|p|p]; [lia | | reflexivity].
  do 5 (try destruct p as [p|p|]); try reflexivity; lia.
Qed.

Lemma get_coin_sym_table (coins : Z) : get_coin_sym coins = glyph_table coins.
Proof.
  unfold get_coin_sym, coin_table. cbv [list_to_map foldr fst snd].
  do 17 (rewrite lookup_insert; case_decide; [by subst coins |]).
  rewrite lookup_empty. simpl. symmetry. apply glyph_table_outside. lia.
Qed.

Lemma glyph_table_char (count : Z) :
  exists c, glyph_table count = String c "" /\ c <> Py.newline.
Proof.
  destruct (decide (0 <= count <= 16)) as [H|H].
  - assert (Hc : count ∈ seqZ 0 17) by (apply elem_of_seqZ; lia).
    revert Hc. generalize count. apply Forall_forall.
    repeat (constructor; [eexists; split; [reflexivity | discriminate] |]).
    constructor.
  - rewrite glyph_table_outside by done. eexists; split; [reflexivity | discriminate].
Qed.

Lemma get_coin_sym_char (coins : Z) :
  exists c, get_coin_sym coins = String c "" /\ c <> Py.newline.
Proof. rewrite get_coin_sym_table. apply glyph_table_char. Qed.

Lemma length_get_coin_sym (coins : Z) : String.length (get_coin_sym coins) = 1%nat.
Proof. destruct (get_coin_sym_char coins) as (c & -> & _). reflexivity. Qed.

Lemma no_newline_get_coin_sym (coins : Z) : no_newline (get_coin_sym coins).
Proof.
  destruct (get_coin_sym_char coins) as (c & -> & Hc).
  apply no_newline_cons. split; [done | apply no_newline_empty].
Qed.

(** C9. [get_coin_sym] is total over the integers: it agrees everywhere
    with the fixed table (0..16 give the seventeen glyphs) and gives the
    fallback ['!'] for every integer outside 0..16, negative ones
    included; being a function into [string], it never raises. *)
Theorem get_coin_sym_total (coins : Z) :
  get_coin_sym coins = glyph_table coins /\
  (~ (0 <= coins <= 16) -> get_coin_sym coins = "!").
Proof.
  split; [apply get_coin_sym_table |].
  intros H. rewrite get_coin_sym_table. by apply glyph_table_outside.
Qed.

Lemma get_coin_sym_total_witness :
  get_coin_sym 9 = "@" /\ get_coin_sym (-1) = "!" /\ get_coin_sym 17 = "!".
Proof.
  split; [exact (proj1 (get_coin_sym_total 9)) |].
  split; [apply (proj2 (get_coin_sym_total (-1))); lia
         | apply (proj2 (get_coin_sym_total 17)); lia].
Defined.

(** ** The rendered text *)

Section Display.

Variable self : RandomArt.
Variable room : gmap (Z * Z) Z.

Lemma fold_left_append_ext {A} (g : string -> A -> string) (f : A -> string)
    (l : list A) (acc : string) :
  (forall str a, g str a = str +:+ f a) ->
  fold_left g l acc = acc +:+ cat (map f l).
Proof.
  intros Hg. rewrite <- fold_left_append. revert acc.
  induction l as [|a l IH]; intros acc; simpl; [done |].
  by rewrite Hg, IH.
Qed.

Lemma display_unfold :
  display self room = cat (map end_line (upper_lines self room)) +:+ bottom_line self.
Proof.
  unfold display, bottom_line, upper_lines, body_row, border, end_line.
  destruct (room_size self) as [room_x room_y]; simpl fst; simpl snd.
  match goal with
  | |- ?lhs +:+ ?b1 = _ +:+ ?b2 => replace b1 with b2
  end.
  2:{ destruct (hashalg self) as [label|]; [|done].
      by destruct (negb (String.eqb label "")). }
  f_equal.
  rewrite (fold_left_append_ext _
    (fun y => ("|" +:+ cat (map (glyph_at room y) (Py.range room_x)) +:+ "|")
              +:+ String Py.newline "")).
  - simpl map. simpl cat. rewrite map_map. rewrite !app_assoc_str. reflexivity.
  - intros str y. rewrite fold_left_append. by rewrite !app_assoc_str.
Qed.

Lemma len_nonneg (s : string) : 0 <= Py.len s.
Proof. unfold Py.len. lia. Qed.

Lemma no_newline_str_mul (c : ascii) (n : Z) :
  c <> Py.newline -> no_newline (Py.str_mul c n).
Proof. apply no_newline_replicate. Qed.

Lemma no_newline_char (c : ascii) : c <> Py.newline -> no_newline (String c "").
Proof. intros Hc. apply no_newline_cons. split; [done | apply no_newline_empty]. Qed.

Lemma len_border (width : Z) : 0 <= width -> Py.len (border width) = width + 2.
Proof.
  intros Hw. unfold border. rewrite !len_app, len_str_mul.
  change (Py.len "+") with 1. lia.
Qed.

Lemma no_newline_border (width : Z) : no_newline (border width).
Proof.
  unfold border.
  repeat apply no_newline_app;
    [apply no_newline_char | apply no_newline_str_mul | apply no_newline_char];
    discriminate.
Qed.

Lemma glyphs_uniform (y : Z) (l : list Z) :
  Forall (fun s => String.length s = 1%nat) (map (glyph_at room y) l).
Proof. apply Forall_map, Forall_forall. intros x _. apply length_get_coin_sym. Qed.

Lemma len_body_row (y : Z) :
  0 <= fst (room_size self) ->
  Py.len (body_row self room y) = fst (room_size self) + 2.
Proof.
  intros Hw. unfold body_row. rewrite !len_app. unfold Py.len at 2.
  rewrite (length_cat_uniform _ 1) by apply glyphs_uniform.
  rewrite length_map. unfold Py.range. rewrite length_seqZ.
  change (Py.len "|") with 1. lia.
Qed.

Lemma no_newline_cat (l : list string) : Forall no_newline l -> no_newline (cat l).
Proof.
  induction 1; simpl; [apply no_newline_empty | by apply no_newline_app].
Qed.

Lemma no_newline_body_row (y : Z) : no_newline (body_row self room y).
Proof.
  unfold body_row.
  repeat apply no_newline_app; [by apply no_newline_char | | by apply no_newline_char].
  apply no_newline_cat, Forall_map, Forall_forall.
  intros x _. apply no_newline_get_coin_sym.
Qed.

Lemma upper_lines_no_newline : Forall no_newline (upper_lines self room).
Proof.
  constructor; [apply no_newline_border |].
  apply Forall_map, Forall_forall. intros y _. apply no_newline_body_row.
Qed.

Lemma upper_lines_len :
  0 <= fst (room_size self) ->
  Forall (fun l => Py.len l = fst (room_size self) + 2) (upper_lines self room).
Proof.
  intros Hw. constructor; [by apply len_border |].
  apply Forall_map, Forall_forall. intros y _. by apply len_body_row.
Qed.

Lemma length_upper_lines :
  length (upper_lines self room) = S (Z.to_nat (snd (room_size self))).
Proof.
  unfold upper_lines. simpl. rewrite length_map. unfold Py.range.
  by rewrite length_seqZ.
Qed.

(** Every line [display] writes before the last ends in a newline and holds
    no other, so [split('\n')] gives them back, followed by the lines of
    the bottom border. *)
Lemma split_lines_display :
  Py.split_lines (display self room)
  = upper_lines self room ++ Py.split_lines (bottom_line self).
Proof.
  rewrite display_unfold. apply split_lines_cat, upper_lines_no_newline.
Qed.

End Display.

(** *** [center] *)

Lemma land_1_bounds (a : Z) : 0 <= Z.land a 1 <= 1.
Proof.
  assert (Z.land a 1 = a mod 2) as ->
    by exact (Z.land_ones a 1 ltac:(lia)).
  pose proof (Z.mod_pos_bound a 2 ltac:(lia)). lia.
Qed.

Lemma len_center (s : string) (width : Z) (c : ascii) :
  Py.len s <= width -> Py.len (Py.center s width c) = width.
Proof.
  intros Hs. unfold Py.center. case_match; [apply Z.leb_le in H; lia |].
  apply Z.leb_gt in H. rewrite !len_app, !len_str_mul.
  pose proof (land_1_bounds (Z.land (width - Py.len s) width)) as Hb.
  set (b := Z.land (Z.land (width - Py.len s) width) 1) in *.
  set (marg := width - Py.len s) in *.
  assert (0 <= marg / 2) by (apply Z.div_pos; lia).
  assert (marg / 2 + b <= marg).
  { destruct (decide (marg = 1)) as [->|]; [change (1 / 2) with 0; lia |].
    pose proof (Z.div_lt_upper_bound marg 2 (marg - 1 + 1) ltac:(lia) ltac:(lia)).
    destruct (decide (b = 0)); [lia |].
    assert (marg / 2 < marg - 1 + 1 - 0) by lia.
    pose proof (Z.div_le_upper_bound marg 2 (marg - 1) ltac:(lia) ltac:(lia)). lia. }
  lia.
Qed.

Lemma no_newline_center (s : string) (width : Z) (c : ascii) :
  no_newline s -> c <> Py.newline -> no_newline (Py.center s width c).
Proof.
  intros Hs Hc. unfold Py.center. case_match; [done |].
  repeat apply no_newline_app; auto using no_newline_str_mul.
Qed.

(** *** Lines and cells of the rendered text *)

Lemma bottom_line_unlabelled (self : RandomArt) :
  unlabelled self -> bottom_line self = border (fst (room_size self)).
Proof. unfold bottom_line. by intros [-> | ->]. Qed.

Lemma bottom_line_fits (self : RandomArt) :
  0 <= fst (room_size self) -> label_fits self ->
  Py.len (bottom_line self) = fst (room_size self) + 2 /\
  no_newline (bottom_line self).
Proof.
  intros Hw. unfold label_fits, bottom_line.
  destruct (hashalg self) as [label|];
    [| intros _; split; [by apply len_border | apply no_newline_border]].
  destruct (String.eqb_spec label "") as [->|Hne]; simpl;
    [intros _; split; [by apply len_border | apply no_newline_border] |].
  intros [-> | [Hlen Hnl]]; [done |]. split.
  - rewrite !len_app, len_center; [change (Py.len "+") with 1; lia |].
    rewrite !len_app. change (Py.len "[") with 1. change (Py.len "]") with 1. lia.
  - repeat apply no_newline_app; try (apply no_newline_char; discriminate).
    apply no_newline_center; [| discriminate].
    repeat apply no_newline_app; try (apply no_newline_char; discriminate). done.
Qed.

(** The character of cell [(x, y)] is the glyph of its counter. *)
Lemma display_cell (self : RandomArt) (room : gmap (Z * Z) Z) (x y : Z) :
  0 <= x < fst (room_size self) ->
  0 <= y < snd (room_size self) ->
  cell_char (fst (room_size self)) (display self room) x y
  = String.get 0 (get_coin_sym (counter_get room (x, y))).
Proof.
  intros Hx Hy. unfold cell_char. rewrite display_unfold.
  set (w := fst (room_size self)) in *. set (h := snd (room_size self)) in *.
  rewrite Z2Nat.inj_add, Z2Nat.inj_mul by nia.
  replace (Z.to_nat (y + 1)) with (S (Z.to_nat y)) by lia.
  replace (Z.to_nat (x + 1)) with (S (Z.to_nat x)) by lia.
  rewrite (get_cat_uniform _ (Z.to_nat (w + 3)) _ _ (end_line (body_row self room y)));
    [| | | lia].
  - unfold end_line, body_row. fold w. rewrite app_cons_str, app_nil_str.
    rewrite app_cons_str, get_cons_S, app_assoc_str.
    replace (Z.to_nat x) with (Z.to_nat x * 1 + 0)%nat by lia.
    rewrite (get_cat_uniform _ 1 _ _ (glyph_at room y x)); [done | | | lia].
    + apply glyphs_uniform.
    + rewrite list_lookup_fmap. unfold Py.range.
      rewrite lookup_seqZ_lt by lia. simpl. f_equal. f_equal. lia.
  - apply Forall_map. eapply Forall_impl; [apply upper_lines_len; fold w; lia |].
    intros l Hl. unfold end_line, Py.len in *. rewrite length_app_str. simpl.
    fold w in Hl. lia.
  - rewrite list_lookup_fmap. unfold upper_lines. simpl. rewrite list_lookup_fmap.
    fold h. unfold Py.range. rewrite lookup_seqZ_lt by lia. simpl.
    do 3 f_equal. lia.
Qed.

(** C7 (amended). For every room with width >= 1 and height >= 1, every
    visit counter, and every label that fits (no label, or a label without
    newline whose length plus the two brackets is at most the width), the
    rendered text splits at newlines into exactly height + 2 lines of
    exactly width + 2 characters each; and without a label the first and
    the last line are both ['+'], width times ['-'], ['+']. *)
Theorem display_shape (self : RandomArt) (room : gmap (Z * Z) Z) :
  1 <= fst (room_size self) ->
  1 <= snd (room_size self) ->
  label_fits self ->
  let lines := Py.split_lines (display self room) in
  Z.of_nat (length lines) = snd (room_size self) + 2 /\
  Forall (fun l => Py.len l = fst (room_size self) + 2) lines /\
  (unlabelled self ->
   head lines = Some ("+" +:+ Py.str_mul "-" (fst (room_size self)) +:+ "+") /\
   last lines = Some ("+" +:+ Py.str_mul "-" (fst (room_size self)) +:+ "+")).
Proof.
  intros Hw Hh Hfit lines. subst lines. rewrite split_lines_display.
  destruct (bottom_line_fits self ltac:(lia) Hfit) as [Hlen Hnl].
  rewrite (split_lines_no_newline _ Hnl). repeat split.
  - rewrite length_app, length_upper_lines. simpl. lia.
  - apply Forall_app. split; [apply upper_lines_len; lia |].
    by repeat constructor.
  - rewrite last_snoc. by rewrite bottom_line_unlabelled.
Qed.

Lemma display_shape_witness :
  let self := mkRandomArt None (17, 9) (8, 4) in
  let lines := Py.split_lines (display self ∅) in
  Z.of_nat (length lines) = 11 /\
  Forall (fun l => Py.len l = 19) lines /\
  head lines = Some "+-----------------+" /\
  last lines = Some "+-----------------+".
Proof.
  intros self lines.
  assert (Hfit : label_fits self) by exact I.
  destruct (display_shape self ∅ ltac:(simpl; lia) ltac:(simpl; lia) Hfit)
    as (Hn & Hall & Hb).
  split; [exact Hn |]. split; [exact Hall |].
  apply Hb. by left.
Defined.

(** C7 as stated fails for a label that does not fit: [center] returns a
    string longer than the width unchanged, and the last line overflows. *)
Lemma display_long_label_overflows :
  let self := mkRandomArt (Some "0123456789abcdef") (17, 9) (8, 4) in
  1 <= fst (room_size self) /\ 1 <= snd (room_size self) /\
  ~ Forall (fun l => Py.len l = fst (room_size self) + 2)
      (Py.split_lines (display self ∅)).
Proof.
  intros self. split; [simpl; lia |]. split; [simpl; lia |].
  intros H. rewrite Forall_forall in H.
  specialize (H "+[0123456789abcdef]+").
  assert (Hin : "+[0123456789abcdef]+" ∈ Py.split_lines (display self ∅)).
  { apply (list_elem_of_lookup_2 _ 10%nat). vm_compute. reflexivity. }
  specialize (H Hin). vm_compute in H. discriminate.
Qed.

(** ** The walk *)

Section Walk.

Variable self : RandomArt.

(** Each axis is clamped on its own: first [min] with the largest index,
    then [max] with 0. *)
Lemma get_position_clamp (x y dx dy : Z) :
  get_position self (x, y) (dx, dy)
  = (Z.max (Z.min (x + dx) (fst (room_size self) - 1)) 0,
     Z.max (Z.min (y + dy) (snd (room_size self) - 1)) 0).
Proof. reflexivity. Qed.

Lemma get_position_in_room (p : Z * Z) (m : Move) :
  1 <= fst (room_size self) -> 1 <= snd (room_size self) ->
  in_room self (get_position self p m).
Proof.
  intros Hw Hh. destruct p as [x y], m as [dx dy].
  rewrite get_position_clamp. unfold in_room; simpl. lia.
Qed.

Lemma positions_in_room (cur : Z * Z) (directions : list Move) :
  1 <= fst (room_size self) -> 1 <= snd (room_size self) ->
  Forall (in_room self) (positions self cur directions).
Proof.
  intros Hw Hh. revert cur.
  induction directions as [|d ds IH]; intros cur; simpl; constructor.
  - by apply get_position_in_room.
  - apply IH.
Qed.

(** The loop of [get_room] and the list of positions agree. *)
Lemma walk_step_snd (room : gmap (Z * Z) Z) (cur : Z * Z) (d : Move) :
  snd (walk_step self (room, cur) d) = get_position self cur d.
Proof. reflexivity. Qed.

Lemma fold_walk_end (directions : list Move) (room : gmap (Z * Z) Z) (cur : Z * Z) :
  snd (fold_left (walk_step self) directions (room, cur))
  = default cur (last (positions self cur directions)).
Proof.
  revert room cur. induction directions as [|d ds IH]; intros room cur; [done |].
  simpl. rewrite IH, last_cons. by destruct (last _).
Qed.

Lemma fold_walk_end_in (directions : list Move) (room : gmap (Z * Z) Z) (cur : Z * Z) :
  directions <> [] ->
  snd (fold_left (walk_step self) directions (room, cur))
  ∈ positions self cur directions.
Proof.
  intros Hne. rewrite fold_walk_end.
  destruct (last (positions self cur directions)) as [p|] eqn:E.
  - by apply last_Some_elem_of.
  - apply last_None in E. by destruct directions.
Qed.

(** Only cells the walk has stood on are counted. *)
Lemma fold_walk_keys (directions : list Move) (room : gmap (Z * Z) Z) (cur p : Z * Z) :
  is_Some (fst (fold_left (walk_step self) directions (room, cur)) !! p) ->
  is_Some (room !! p) \/ p ∈ positions self cur directions.
Proof.
  revert room cur. induction directions as [|d ds IH]; intros room cur H.
  - by left.
  - simpl in H. apply IH in H as [H | H].
    + destruct (decide (get_position self cur d = p)) as [<- | Hne].
      * right. simpl. apply list_elem_of_here.
      * left. by rewrite lookup_insert_ne in H.
    + right. simpl. by apply list_elem_of_further.
Qed.

(** One step adds one to the counter of the cell stepped on and leaves the
    other cells alone. *)
Lemma walk_step_count (room : gmap (Z * Z) Z) (cur : Z * Z) (d : Move) (p : Z * Z) :
  counter_get (fst (walk_step self (room, cur) d)) p
  = if decide (p = get_position self cur d)
    then counter_get room p + 1
    else counter_get room p.
Proof.
  unfold walk_step, counter_get. simpl fst. case_decide as E.
  - subst p. by rewrite lookup_insert_eq.
  - by rewrite lookup_insert_ne.
Qed.

(** The walk counts, for each cell, how often it occurs among the
    positions. *)
Lemma fold_walk_counts (directions : list Move) (room : gmap (Z * Z) Z)
    (cur p : Z * Z) :
  counter_get (fst (fold_left (walk_step self) directions (room, cur))) p
  = counter_get room p
    + Z.of_nat (length (filter (fun q => q = p) (positions self cur directions))).
Proof.
  revert room cur. induction directions as [|d ds IH]; intros room cur.
  - simpl. lia.
  - simpl fold_left. simpl positions. rewrite IH.
    pose proof (walk_step_count room cur d p) as Hstep.
    unfold walk_step in Hstep. simpl fst in Hstep. rewrite Hstep, filter_cons.
    destruct (decide (p = get_position self cur d)) as [-> | Hne].
    + rewrite decide_True by done. simpl length. lia.
    + rewrite decide_False by congruence. lia.
Qed.

End Walk.

Lemma walk_counts (self : RandomArt) (directions : list Move) (p : Z * Z) :
  counter_get (fst (walk self directions)) p
  = Z.of_nat (length (filter (fun q => q = p)
                        (positions self (start self) directions))).
Proof.
  unfold walk. rewrite fold_walk_counts. unfold counter_get.
  by rewrite lookup_empty.
Qed.

(** C3. In a room of width >= 1 and height >= 1, whatever the start and
    whatever the moves, every position a walk step produces (through
    [get_position]) satisfies [0 <= x < width] and [0 <= y < height]: this
    holds for a single step from any state, for the whole sequence of
    positions of the walk, for its end position once a move was made, and
    for every cell the walk has counted. *)
Theorem walk_stays_in_room (self : RandomArt) (directions : list Move) :
  1 <= fst (room_size self) ->
  1 <= snd (room_size self) ->
  (forall st d, in_room self (snd (walk_step self st d))) /\
  Forall (in_room self) (positions self (start self) directions) /\
  (directions <> [] -> in_room self (snd (walk self directions))) /\
  (forall p, is_Some (fst (walk self directions) !! p) -> in_room self p).
Proof.
  intros Hw Hh.
  pose proof (positions_in_room self (start self) directions Hw Hh) as Hall.
  rewrite Forall_forall in Hall.
  split; [| split; [| split]].
  - intros [room cur] d. rewrite walk_step_snd. by apply get_position_in_room.
  - by apply Forall_forall.
  - intros Hne. unfold walk. by apply Hall, fold_walk_end_in.
  - intros p Hp. unfold walk in Hp.
    apply fold_walk_keys in Hp as [Hp | Hp]; [| by apply Hall].
    rewrite lookup_empty in Hp. by destruct Hp.
Qed.

Lemma walk_stays_in_room_witness :
  let self := mkRandomArt None (17, 9) (8, 4) in
  Forall (in_room self) (positions self (8, 4) [NW; NW; NW; NW; NW; SE]) /\
  in_room self (snd (walk self [NW; NW; NW; NW; NW; SE])).
Proof.
  intros self.
  destruct (walk_stays_in_room self [NW; NW; NW; NW; NW; SE]
              ltac:(simpl; lia) ltac:(simpl; lia)) as (_ & Hall & Hend & _).
  split; [exact Hall | by apply Hend].
Defined.


(** ** Walls and corners *)

(** C8. In a room of width >= 1 and height >= 1, one step by one of the four
    moves from a corner cell computes each axis on its own as
    [max(0, min(candidate, dimension - 1))]; an axis on which the move
    points out of the room keeps its coordinate (no bounce); the walk step
    adds 1 to the counter of the cell it lands on; so a move that points
    out of the corner on both axes leaves the position where it is and adds
    1 to the counter of that same cell. *)
Theorem corner_step_clamps (self : RandomArt) (room : gmap (Z * Z) Z)
    (x y : Z) (m : Move) :
  1 <= fst (room_size self) ->
  1 <= snd (room_size self) ->
  is_corner self (x, y) ->
  is_move m ->
  let w := fst (room_size self) in
  let h := snd (room_size self) in
  let p' := get_position self (x, y) m in
  let st' := walk_step self (room, (x, y)) m in
  fst p' = Z.max 0 (Z.min (x + fst m) (w - 1)) /\
  snd p' = Z.max 0 (Z.min (y + snd m) (h - 1)) /\
  (clamped x (fst m) w -> fst p' = x) /\
  (clamped y (snd m) h -> snd p' = y) /\
  snd st' = p' /\
  counter_get (fst st') p' = counter_get room p' + 1 /\
  (clamped x (fst m) w -> clamped y (snd m) h ->
   snd st' = (x, y) /\
   counter_get (fst st') (x, y) = counter_get room (x, y) + 1).
Proof.
  intros Hw Hh [Hx Hy] Hm w h p' st'. simpl in Hx, Hy.
  assert (Hp' : p' = (Z.max 0 (Z.min (x + fst m) (w - 1)),
                      Z.max 0 (Z.min (y + snd m) (h - 1)))).
  { subst p'. destruct m as [dx dy]. rewrite get_position_clamp. simpl.
    f_equal; apply Z.max_comm. }
  assert (Hcount : counter_get (fst st') p' = counter_get room p' + 1).
  { subst st'. rewrite walk_step_count. by rewrite decide_True. }
  assert (Hcx : clamped x (fst m) w -> fst p' = x).
  { rewrite Hp'. unfold clamped. simpl.
    destruct Hm as [-> | [-> | [-> | ->]]]; simpl; lia. }
  assert (Hcy : clamped y (snd m) h -> snd p' = y).
  { rewrite Hp'. unfold clamped. simpl.
    destruct Hm as [-> | [-> | [-> | ->]]]; simpl; lia. }
  repeat split; try done.
  - by rewrite Hp'.
  - by rewrite Hp'.
  - change (snd st') with p'. rewrite (surjective_pairing p'). f_equal; auto.
  - replace (x, y) with p'; [done |].
    rewrite (surjective_pairing p'). f_equal; auto.
Qed.

Lemma corner_step_clamps_witness :
  let self := mkRandomArt None (17, 9) (8, 4) in
  get_position self (0, 0) NW = (0, 0) /\
  counter_get (fst (walk_step self ({[ (0, 0) := 3 ]}, (0, 0)) NW)) (0, 0) = 4.
Proof.
  intros self.
  assert (Hc : is_corner self (0, 0)) by (split; left; reflexivity).
  assert (Hm : is_move NW) by (left; reflexivity).
  destruct (corner_step_clamps self {[ (0, 0) := 3 ]} 0 0 NW
              ltac:(simpl; lia) ltac:(simpl; lia) Hc Hm)
    as (_ & _ & _ & _ & _ & _ & Hboth).
  destruct Hboth as [Hpos Hcnt]; [left; simpl; lia | left; simpl; lia |].
  split; [exact Hpos | exact Hcnt].
Defined.

(** ** Start and end markers *)

Lemma get_room_end_ok (self : RandomArt) (hex_string : string) (directions : list Move) :
  hex_to_dirs hex_string = Ok directions ->
  get_room_end self hex_string
  = Ok (<[snd (walk self directions) := 16]>
          (<[start self := 15]> (fst (walk self directions))),
        snd (walk self directions)).
Proof.
  intros H. unfold get_room_end. rewrite H. simpl.
  by destruct (walk self directions).
Qed.

Lemma get_room_ok (self : RandomArt) (hex_string : string) (directions : list Move) :
  hex_to_dirs hex_string = Ok directions ->
  get_room self hex_string
  = Ok (<[snd (walk self directions) := 16]>
          (<[start self := 15]> (fst (walk self directions)))).
Proof. intros H. unfold get_room. by rewrite (get_room_end_ok _ _ _ H). Qed.

Lemma cell_shows (self : RandomArt) (room : gmap (Z * Z) Z) (p : Z * Z) (c : ascii) :
  in_room self p ->
  get_coin_sym (counter_get room p) = String c "" ->
  cell_char (fst (room_size self)) (display self room) (fst p) (snd p) = Some c.
Proof.
  intros [Hx Hy] Hc. rewrite display_cell by done.
  rewrite <- surjective_pairing, Hc. reflexivity.
Qed.

(** C4. When decoding succeeds, [get_room] returns the counters of the walk
    with the entry of the start cell replaced by 15 and then the entry of
    the end cell replaced by 16, whatever was counted there: the end cell
    holds 16; the start cell holds 15 when it differs from the end cell; the
    other cells keep their counts; and when start and end coincide that cell
    holds 16, its glyph is ['E'], and ['E'] is the character rendered at that
    cell when it lies in the room. *)
Theorem sentinels_overwrite (self : RandomArt) (hex_string : string)
    (directions : list Move) :
  hex_to_dirs hex_string = Ok directions ->
  let walked := fst (walk self directions) in
  let finish := snd (walk self directions) in
  exists room,
    get_room self hex_string = Ok room /\
    room = <[finish := 16]> (<[start self := 15]> walked) /\
    room !! finish = Some 16 /\
    (start self <> finish -> room !! start self = Some 15) /\
    (forall p, p <> start self -> p <> finish -> room !! p = walked !! p) /\
    (start self = finish ->
     room !! start self = Some 16 /\
     get_coin_sym (counter_get room (start self)) = "E" /\
     (in_room self (start self) ->
      cell_char (fst (room_size self)) (display self room)
        (fst (start self)) (snd (start self)) = Some "E"%char)).
Proof.
  intros H walked finish. eexists. split; [by apply get_room_ok |].
  fold walked finish. split; [done |].
  assert (Hend : (<[finish := 16]> (<[start self := 15]> walked)) !! finish = Some 16)
    by apply lookup_insert_eq.
  split; [exact Hend |]. split; [| split].
  - intros Hne. rewrite lookup_insert_ne by done. apply lookup_insert_eq.
  - intros p Hs Hf. by rewrite !lookup_insert_ne.
  - intros Heq.
    assert (Hs : (<[finish := 16]> (<[start self := 15]> walked)) !! start self
                 = Some 16) by (rewrite Heq; apply lookup_insert_eq).
    assert (Hsym : get_coin_sym
              (counter_get (<[finish := 16]> (<[start self := 15]> walked))
                 (start self)) = "E")
      by (unfold counter_get; by rewrite Hs).
    split; [exact Hs |]. split; [exact Hsym |].
    intros Hin. by apply cell_shows.
Qed.

Lemma sentinels_overwrite_witness :
  let self := mkRandomArt None (17, 9) (8, 4) in
  exists room,
    get_room self "cc" = Ok room /\
    counter_get (fst (walk self [NW; SE; NW; SE])) (8, 4) = 2 /\
    room !! (8, 4) = Some 16 /\
    cell_char 17 (display self room) 8 4 = Some "E"%char.
Proof.
  intros self.
  assert (Hd : hex_to_dirs "cc" = Ok [NW; SE; NW; SE]) by (vm_compute; reflexivity).
  destruct (sentinels_overwrite self "cc" [NW; SE; NW; SE] Hd)
    as (room & Hroom & _ & _ & _ & _ & Hsame).
  assert (Heq : start self = snd (walk self [NW; SE; NW; SE]))
    by (vm_compute; reflexivity).
  destruct (Hsame Heq) as (H16 & _ & Hcell).
  exists room. split; [exact Hroom |].
  split; [vm_compute; reflexivity |]. split; [exact H16 |].
  apply Hcell. unfold in_room; simpl; lia.
Defined.

(** ** Scenarios *)

(** C2. For the hex string ["00"] in a 17x9 room with start (8,4) (the
    default room with its default start), whatever the label: the moves are [NW, NW, NW, NW]; the walk visits (7,3), (6,2),
    (5,1), (4,0) in that order and ends at (4,0); and the rendered text shows
    ['S'] at cell (8,4) and ['E'] at cell (4,0). *)
Theorem scenario_00 (label : option string) :
  let self := mkRandomArt label (17, 9) (8, 4) in
  __init__ label DEFAULT_ROOM_SIZE None = Ok self /\
  __init__ label (17, 9) (Some (8, 4)) = Ok self /\
  hex_to_dirs "00" = Ok [NW; NW; NW; NW] /\
  positions self (start self) [NW; NW; NW; NW] = [(7, 3); (6, 2); (5, 1); (4, 0)] /\
  exists room,
    get_room_end self "00" = Ok (room, (4, 0)) /\
    get_room self "00" = Ok room /\
    __call__ self "00" = Ok (display self room) /\
    cell_char 17 (display self room) 8 4 = Some "S"%char /\
    cell_char 17 (display self room) 4 0 = Some "E"%char.
Proof.
  intros self.
  assert (Hd : hex_to_dirs "00" = Ok [NW; NW; NW; NW]) by (vm_compute; reflexivity).
  split; [reflexivity |]. split; [reflexivity |].
  split; [exact Hd |]. split; [reflexivity |].
  pose proof (get_room_end_ok self "00" _ Hd) as Hend.
  pose proof (get_room_ok self "00" _ Hd) as Hroom.
  assert (Hfin : snd (walk self [NW; NW; NW; NW]) = (4, 0)) by (vm_compute; reflexivity).
  rewrite Hfin in Hend, Hroom.
  eexists. split; [exact Hend |]. split; [exact Hroom |].
  split; [unfold __call__; by rewrite Hroom |].
  split.
  - apply (cell_shows self _ (8, 4)); [unfold in_room; simpl; lia |].
    unfold counter_get. rewrite lookup_insert_ne by done.
    by rewrite lookup_insert_eq.
  - apply (cell_shows self _ (4, 0)); [unfold in_room; simpl; lia |].
    unfold counter_get. by rewrite lookup_insert_eq.
Qed.

(** C10. For the empty hex string decoding succeeds with no move; the walk
    takes no step and ends on the start cell; [get_room] returns the single
    entry start := 16; and in the rendered text every cell of the room shows
    [' '], except the start cell (when it lies in the room), which shows
    ['E']. *)
Theorem empty_fingerprint (self : RandomArt) :
  hex_to_dirs "" = Ok [] /\
  positions self (start self) [] = [] /\
  get_room_end self "" = Ok ({[ start self := 16 ]}, start self) /\
  get_room self "" = Ok {[ start self := 16 ]} /\
  __call__ self "" = Ok (display self {[ start self := 16 ]}) /\
  forall x y,
    0 <= x < fst (room_size self) ->
    0 <= y < snd (room_size self) ->
    cell_char (fst (room_size self)) (display self {[ start self := 16 ]}) x y
    = Some (if decide ((x, y) = start self) then "E"%char else " "%char).
Proof.
  assert (Hd : hex_to_dirs "" = Ok []) by reflexivity.
  assert (Hend : get_room_end self "" = Ok ({[ start self := 16 ]}, start self)).
  { rewrite (get_room_end_ok self "" [] Hd). unfold walk. simpl.
    by rewrite insert_insert_eq, insert_empty. }
  assert (Hroom : get_room self "" = Ok {[ start self := 16 ]}).
  { unfold get_room. by rewrite Hend. }
  split; [exact Hd |]. split; [reflexivity |]. split; [exact Hend |].
  split; [exact Hroom |]. split; [unfold __call__; by rewrite Hroom |].
  intros x y Hx Hy. apply (cell_shows self _ (x, y)); [by split |].
  unfold counter_get. case_decide as E.
  - rewrite E. by rewrite lookup_singleton_eq.
  - by rewrite lookup_singleton_ne.
Qed.

Lemma empty_fingerprint_witness :
  let self := mkRandomArt None (17, 9) (8, 4) in
  cell_char 17 (display self {[ (8, 4) := 16 ]}) 8 4 = Some "E"%char /\
  cell_char 17 (display self {[ (8, 4) := 16 ]}) 0 0 = Some " "%char.
Proof.
  intros self.
  destruct (empty_fingerprint self) as (_ & _ & _ & _ & _ & Hcells).
  split.
  - apply (Hcells 8 4); simpl; lia.
  - apply (Hcells 0 0); simpl; lia.
Defined.

(** ** Decoding *)

(** *** Loops that may raise *)

Lemma is_ok_succeeds {A} (r : result A) : is_ok r = true <-> succeeds r.
Proof.
  destruct r; simpl; split; try done; [by eexists | by intros [? ?]].
Qed.

Lemma is_ok_fails {A} (r : result A) : is_ok r = false <-> fails r.
Proof.
  destruct r; simpl; split; try done; [by intros [? ?] | by eexists].
Qed.

Lemma fails_not_succeeds {A} (r : result A) : fails r <-> ~ succeeds r.
Proof.
  rewrite <- is_ok_fails, <- is_ok_succeeds. by destruct (is_ok r).
Qed.

Lemma for_each_app {A B} (f : A -> result B) (l1 l2 : list A) :
  for_each f (l1 ++ l2)
  = (r1 <-- for_each f l1 ;; r2 <-- for_each f l2 ;; Ok (r1 ++ r2)).
Proof.
  induction l1 as [|a l1 IH]; simpl.
  - by destruct (for_each f l2).
  - destruct (f a); simpl; [| done]. rewrite IH.
    destruct (for_each f l1); simpl; [| done].
    by destruct (for_each f l2).
Qed.

Lemma for_each_length {A B} (f : A -> result B) (l : list A) (r : list B) :
  for_each f l = Ok r -> length r = length l.
Proof.
  revert r. induction l as [|a l IH]; intros r; simpl.
  - by intros [= <-].
  - destruct (f a); simpl; [| done].
    destruct (for_each f l) as [r' |]; simpl; [| done].
    intros [= <-]. simpl. f_equal. by apply IH.
Qed.

Lemma for_each_Forall {A B} (f : A -> result B) (l : list A) :
  succeeds (for_each f l) <-> Forall (fun a => succeeds (f a)) l.
Proof.
  induction l as [|a l IH]; simpl.
  - split; [constructor | by eexists].
  - split.
    + intros [r Hr]. destruct (f a) eqn:Ea; simpl in Hr; [| done].
      destruct (for_each f l) eqn:El; simpl in Hr; [| done].
      constructor; [by eexists |]. apply IH. by eexists.
    + intros H. apply Forall_cons in H as [[b Hb] Hl].
      apply IH in Hl as [r Hr]. rewrite Hb, Hr. by eexists.
Qed.

(** *** One two-character slice at a time *)

Lemma hex_to_dirs_even (s : string) :
  Py.len s mod 2 = 0 -> hex_to_dirs s = decode_chunks (Py.slices2 s).
Proof. intros H. unfold hex_to_dirs. by rewrite H. Qed.

Lemma hex_to_dirs_odd (s : string) :
  Py.len s mod 2 <> 0 -> hex_to_dirs s = Raise AssertionError.
Proof.
  intros H. unfold hex_to_dirs.
  by destruct (Z.eqb_spec (Py.len s mod 2) 0).
Qed.

Lemma decode_chunks_cons (c : string) (cs : list string) :
  decode_chunks (c :: cs)
  = match bin_byte c with
    | Ok byte =>
        match for_each bin_byte cs with
        | Ok bs =>
            r1 <-- for_each (dict_item direction_map) (byte_split byte) ;;
            r2 <-- for_each (dict_item direction_map) (concat (map byte_split bs)) ;;
            Ok (r1 ++ r2)
        | Raise e => Raise e
        end
    | Raise e => Raise e
    end.
Proof.
  unfold decode_chunks. simpl. destruct (bin_byte c); simpl; [| done].
  destruct (for_each bin_byte cs); simpl; [| done]. apply for_each_app.
Qed.

(** Running the loops one after the other succeeds exactly when every slice
    decodes on its own, with the moves of the slices in order. *)
Lemma decode_chunks_ok (chunks : list string) (dss : list (list Move)) :
  for_each decode_chunk chunks = Ok dss ->
  decode_chunks chunks = Ok (concat dss).
Proof.
  revert dss. induction chunks as [|c cs IH]; intros dss; simpl.
  - by intros [= <-].
  - rewrite decode_chunks_cons. unfold decode_chunk at 1.
    destruct (bin_byte c) as [byte|]; simpl; [| done].
    destruct (for_each (dict_item direction_map) (byte_split byte)) as [r1|];
      simpl; [| done].
    destruct (for_each decode_chunk cs) as [dss'|]; simpl; [| done].
    intros [= <-]. specialize (IH _ eq_refl). unfold decode_chunks in IH.
    destruct (for_each bin_byte cs) as [bs|]; simpl in *; [| done].
    by rewrite IH.
Qed.

Lemma decode_chunks_fails (chunks : list string) :
  fails (for_each decode_chunk chunks) -> fails (decode_chunks chunks).
Proof.
  induction chunks as [|c cs IH]; simpl.
  - by intros [? ?].
  - rewrite decode_chunks_cons. unfold decode_chunk at 1.
    destruct (bin_byte c) as [byte|]; simpl; [| by eexists].
    destruct (for_each bin_byte cs) as [bs|] eqn:Ebs; [| by eexists].
    destruct (for_each (dict_item direction_map) (byte_split byte)) as [r1|];
      simpl; [| by eexists].
    intros Hf.
    assert (Hcs : fails (for_each decode_chunk cs)).
    { destruct (for_each decode_chunk cs); [by destruct Hf | by eexists]. }
    apply IH in Hcs as [e He]. unfold decode_chunks in He. rewrite Ebs in He.
    simpl in He. rewrite He. by eexists.
Qed.

Lemma decode_chunks_succeeds (chunks : list string) :
  succeeds (decode_chunks chunks)
  <-> Forall (fun c => succeeds (decode_chunk c)) chunks.
Proof.
  rewrite <- for_each_Forall. split.
  - intros Hs. destruct (for_each decode_chunk chunks) eqn:E; [by eexists |].
    assert (Hf : fails (decode_chunks chunks))
      by (apply decode_chunks_fails; rewrite E; by eexists).
    apply fails_not_succeeds in Hf. done.
  - intros [dss Hd]. rewrite (decode_chunks_ok _ _ Hd). by eexists.
Qed.

(** *** All characters *)

Lemma forall_bool_spec (P : bool -> bool) :
  forall_bool P = true -> forall b, P b = true.
Proof.
  unfold forall_bool. intros H b. apply andb_prop in H as [Ht Hf].
  by destruct b.
Qed.

Lemma forall_ascii_spec (P : ascii -> bool) :
  forall_ascii P = true -> forall c, P c = true.
Proof.
  intros H [b0 b1 b2 b3 b4 b5 b6 b7]. unfold forall_ascii in H.
  pose proof (forall_bool_spec _ H b0) as H0; cbv beta in H0.
  pose proof (forall_bool_spec _ H0 b1) as H1; cbv beta in H1.
  pose proof (forall_bool_spec _ H1 b2) as H2; cbv beta in H2.
  pose proof (forall_bool_spec _ H2 b3) as H3; cbv beta in H3.
  pose proof (forall_bool_spec _ H3 b4) as H4; cbv beta in H4.
  pose proof (forall_bool_spec _ H4 b5) as H5; cbv beta in H5.
  pose proof (forall_bool_spec _ H5 b6) as H6; cbv beta in H6.
  exact (forall_bool_spec _ H6 b7).
Qed.

Lemma slice_fails_b_spec (chunk : string) :
  slice_fails_b chunk = true <-> slice_fails chunk.
Proof.
  unfold slice_fails_b, slice_fails. destruct (Py.int16 chunk) as [v | e].
  - rewrite Z.ltb_lt. split.
    + intros Hv. right. by exists v.
    + intros [[e He] | (v' & [= <-] & Hv)]; done.
  - split; [intros _; left; by exists e | done].
Qed.

(** A slice of two characters decodes exactly when [int] reads it as a
    number that is not negative. *)
Lemma decode_pair_is_ok (a b : ascii) :
  is_ok (decode_chunk (pair_str a b)) = negb (slice_fails_b (pair_str a b)).
Proof.
  apply eqb_prop. revert b. apply forall_ascii_spec. revert a.
  apply forall_ascii_spec. vm_compute. reflexivity.
Qed.

Lemma decode_pair_hex (a b : ascii) (x y : Z) :
  hex_digit a = Some x -> hex_digit b = Some y ->
  decode_chunk (pair_str a b) = Ok (byte_moves (16 * x + y)).
Proof.
  assert (H : forall a b,
    match hex_digit a, hex_digit b with
    | Some x, Some y => moves_eqb (decode_chunk (pair_str a b)) (byte_moves (16 * x + y))
    | _, _ => true
    end = true).
  { intros a' b'. revert b'. apply forall_ascii_spec. revert a'.
    apply forall_ascii_spec. vm_compute. reflexivity. }
  intros Ha Hb. specialize (H a b). rewrite Ha, Hb in H.
  unfold moves_eqb in H. by apply bool_decide_eq_true in H.
Qed.

(** *** Whole strings *)

Lemma string_pair_ind (P : string -> Prop) :
  P "" ->
  (forall a, P (String a "")) ->
  (forall a b r, P r -> P (String a (String b r))) ->
  forall s, P s.
Proof.
  intros H0 H1 H2. fix IH 1.
  intros [|a [|b r]]; [exact H0 | apply H1 | apply H2, IH].
Qed.

Lemma len_cons2 (a b : ascii) (r : string) :
  Py.len (String a (String b r)) = Py.len r + 2.
Proof. unfold Py.len. simpl. lia. Qed.

Lemma even_cons2 (a b : ascii) (r : string) :
  Py.len (String a (String b r)) mod 2 = Py.len r mod 2.
Proof. rewrite len_cons2. exact (Z_mod_plus_full (Py.len r) 1 2). Qed.

Lemma half_cons2 (a b : ascii) (r : string) :
  Py.len (String a (String b r)) / 2 = Py.len r / 2 + 1.
Proof. rewrite len_cons2. exact (Z_div_plus_full (Py.len r) 1 2 ltac:(lia)). Qed.

(** An even-length string is cut into two-character slices only. *)
Lemma slices2_pairs (s : string) :
  Py.len s mod 2 = 0 ->
  Forall (fun c => exists a b, c = pair_str a b) (Py.slices2 s).
Proof.
  induction s as [| a | a b r IH] using string_pair_ind; intros Hev.
  - constructor.
  - by vm_compute in Hev.
  - rewrite even_cons2 in Hev. simpl. constructor; [by exists a, b | auto].
Qed.

Lemma forallb_Forall {A} (f : A -> bool) (l : list A) :
  forallb f l = true <-> Forall (fun a => f a = true) l.
Proof.
  induction l as [|a l IH]; simpl; [by split; [constructor |] |].
  rewrite andb_true_iff, IH, Forall_cons. done.
Qed.

Lemma forallb_Exists {A} (f : A -> bool) (l : list A) :
  forallb f l = false <-> Exists (fun a => f a = false) l.
Proof.
  induction l as [|a l IH]; simpl; [by rewrite Exists_nil |].
  rewrite andb_false_iff, IH, Exists_cons. done.
Qed.

Lemma decode_chunks_is_ok (chunks : list string) :
  Forall (fun c => exists a b, c = pair_str a b) chunks ->
  is_ok (decode_chunks chunks)
  = forallb (fun c => negb (slice_fails_b c)) chunks.
Proof.
  intros Hp. apply eq_true_iff_eq.
  rewrite is_ok_succeeds, decode_chunks_succeeds, forallb_Forall.
  rewrite !Forall_forall in *. split; intros H c Hc.
  - destruct (Hp c Hc) as (a & b & ->).
    rewrite <- decode_pair_is_ok. by apply is_ok_succeeds, H.
  - specialize (H c Hc). destruct (Hp c Hc) as (a & b & ->).
    rewrite <- decode_pair_is_ok in H. by apply is_ok_succeeds.
Qed.

Lemma length_byte_moves (v : Z) : length (byte_moves v) = 4%nat.
Proof. reflexivity. Qed.

Lemma reference_decode_chunks (s : string) :
  valid_hex s ->
  exists dss,
    for_each decode_chunk (Py.slices2 s) = Ok dss /\
    reference_decode s = Some (concat dss) /\
    Z.of_nat (length (concat dss)) = 4 * (Py.len s / 2).
Proof.
  induction s as [| a | a b r IH] using string_pair_ind; intros [Hev Hhex].
  - by exists [].
  - by vm_compute in Hev.
  - rewrite even_cons2 in Hev. simpl in Hhex.
    apply andb_prop in Hhex as [Ha Hhex]. apply andb_prop in Hhex as [Hb Hr].
    destruct (IH (conj Hev Hr)) as (dss & Hdss & Href & Hlen).
    unfold is_hex_digit in Ha, Hb.
    destruct (hex_digit a) as [x|] eqn:Ea; [| done].
    destruct (hex_digit b) as [y|] eqn:Eb; [| done].
    exists (byte_moves (16 * x + y) :: dss). split; [| split].
    + simpl. fold (pair_str a b). rewrite (decode_pair_hex a b x y Ea Eb).
      simpl. by rewrite Hdss.
    + simpl. by rewrite Ea, Eb, Href.
    + rewrite concat_cons, length_app, length_byte_moves, half_cons2. lia.
Qed.

(** On a valid hex string the three loops return the moves of the
    reference decoder. *)
Lemma valid_hex_decodes (s : string) :
  valid_hex s ->
  exists ms,
    reference_decode s = Some ms /\
    hex_to_dirs s = Ok ms /\
    Z.of_nat (length ms) = 4 * (Py.len s / 2).
Proof.
  intros Hv. destruct (reference_decode_chunks _ Hv) as (dss & Hdss & Href & Hlen).
  exists (concat dss). split; [exact Href |]. split; [| exact Hlen].
  rewrite hex_to_dirs_even by apply Hv. by apply decode_chunks_ok.
Qed.

(** C1. On every valid hex string (even length, hex digits only)
    [hex_to_dirs] returns what the reference decoder returns: the bytes
    left to right, each as 8 zero-padded bits cut into four 2-bit groups
    taken in reversed order, each group mapped by 00 -> NW, 01 -> NE,
    10 -> SW, 11 -> SE; so the result holds exactly 4 * (len / 2) moves. *)
Theorem hex_to_dirs_reference (hex_string : string) :
  valid_hex hex_string ->
  exists directions,
    reference_decode hex_string = Some directions /\
    hex_to_dirs hex_string = Ok directions /\
    Z.of_nat (length directions) = 4 * (Py.len hex_string / 2).
Proof.
  exact (valid_hex_decodes hex_string).
Qed.

Lemma hex_to_dirs_reference_witness :
  exists directions,
    reference_decode "1b00" = Some directions /\
    hex_to_dirs "1b00" = Ok directions /\
    directions = [SE; SW; NE; NW; NW; NW; NW; NW].
Proof.
  assert (Hv : valid_hex "1b00") by (split; reflexivity).
  destruct (hex_to_dirs_reference "1b00" Hv) as (ds & Href & Hsrc & _).
  exists ds. split; [exact Href |]. split; [exact Hsrc |].
  vm_compute in Href. by injection Href as <-.
Defined.

(** C5 as stated fails: ["+1"] has even length and holds a character that
    is not a hex digit, and decodes like ["01"]. *)
Lemma plus_sign_decodes :
  Py.len "+1" mod 2 = 0 /\
  all_hex "+1" = false /\
  hex_to_dirs "+1" = Ok [NE; NW; NW; NW] /\
  hex_to_dirs "01" = Ok [NE; NW; NW; NW].
Proof. repeat split; vm_compute; reflexivity. Qed.

(** C5 (amended). Decoding fails exactly when the string has odd length or,
    for one of its two-character slices, [int(slice, 16)] raises or returns
    a negative number. Odd length fails at the assertion; every even-length
    string of hex digits decodes; and a failure of decoding is the failure
    of [get_room] and of the whole rendering, raised before the walk loop,
    so that neither moves nor a room nor a text are produced. *)
Theorem hex_to_dirs_fails_iff (hex_string : string) :
  (fails (hex_to_dirs hex_string) <->
   Py.len hex_string mod 2 <> 0 \/
   Exists slice_fails (Py.slices2 hex_string)) /\
  (Py.len hex_string mod 2 <> 0 -> hex_to_dirs hex_string = Raise AssertionError) /\
  (valid_hex hex_string -> succeeds (hex_to_dirs hex_string)) /\
  (forall self e,
     hex_to_dirs hex_string = Raise e ->
     get_room_end self hex_string = Raise e /\
     get_room self hex_string = Raise e /\
     __call__ self hex_string = Raise e).
Proof.
  split; [| split; [| split]].
  - destruct (decide (Py.len hex_string mod 2 = 0)) as [Hev | Hodd].
    + rewrite hex_to_dirs_even by done.
      rewrite <- is_ok_fails, decode_chunks_is_ok by by apply slices2_pairs.
      rewrite forallb_Exists.
      assert (Hex : Exists (fun c => negb (slice_fails_b c) = false)
                      (Py.slices2 hex_string)
                    <-> Exists slice_fails (Py.slices2 hex_string)).
      { rewrite !Exists_exists. split; intros (c & Hc & Hf); exists c;
          (split; [done |]).
        - apply slice_fails_b_spec. by destruct (slice_fails_b c).
        - apply slice_fails_b_spec in Hf. by rewrite Hf. }
      rewrite Hex. tauto.
    + rewrite hex_to_dirs_odd by done.
      split; [intros _; by left | intros _; by eexists].
  - apply hex_to_dirs_odd.
  - intros Hv. destruct (valid_hex_decodes _ Hv) as (ds & _ & Hds & _).
    by exists ds.
  - intros self e He. unfold __call__, get_room, get_room_end. by rewrite He.
Qed.

Lemma hex_to_dirs_fails_iff_witness :
  hex_to_dirs "abc" = Raise AssertionError /\
  fails (hex_to_dirs "-1") /\
  succeeds (hex_to_dirs "fc94") /\
  __call__ (mkRandomArt None (17, 9) (8, 4)) "abc" = Raise AssertionError.
Proof.
  split; [| split; [| split]].
  - apply (proj1 (proj2 (hex_to_dirs_fails_iff "abc"))). by vm_compute.
  - apply (proj1 (hex_to_dirs_fails_iff "-1")). right.
    apply Exists_cons. left. right. exists (-1). split; [reflexivity | lia].
  - apply (proj1 (proj2 (proj2 (hex_to_dirs_fails_iff "fc94")))).
    split; reflexivity.
  - apply (proj2 (proj2 (proj2 (hex_to_dirs_fails_iff "abc")))).
    apply (proj1 (proj2 (hex_to_dirs_fails_iff "abc"))). by vm_compute.
Defined.

(** ** Construction *)

(** C6 as stated fails: a room of width 0 is accepted, and so is a start
    outside the room. *)
Lemma init_accepts_zero_width :
  fst (0, 9) <= 0 /\
  __init__ (Some "") (0, 9) None
  = Ok {| hashalg := Some ""; room_size := (0, 9); start := (0, 4) |} /\
  ~ fails (__init__ (Some "") (0, 9) None) /\
  ~ (0 <= fst (100, -3) < fst DEFAULT_ROOM_SIZE) /\
  ~ fails (__init__ (Some "") DEFAULT_ROOM_SIZE (Some (100, -3))).
Proof.
  split; [simpl; lia |]. split; [reflexivity |].
  split; [by intros [e He] |]. split; [simpl; lia | by intros [e He]].
Qed.

(** C6 (amended). Construction validates nothing and never fails: for every
    room size, non-positive dimensions included, and every start, a start
    outside the room included, it yields the configuration with that label,
    that room size and that start, the start defaulting to
    (floor(width / 2), floor(height / 2)). *)
Theorem init_never_fails (label : option string) (size : Z * Z)
    (start_arg : option (Z * Z)) :
  exists self,
    __init__ label size start_arg = Ok self /\
    hashalg self = label /\
    room_size self = size /\
    start self = match start_arg with
                 | Some s => s
                 | None => (fst size / 2, snd size / 2)
                 end.
Proof.
  eexists. split; [reflexivity |]. by repeat split.
Qed.

Lemma init_never_fails_witness :
  exists self,
    __init__ (Some "") (0, 9) None = Ok self /\
    room_size self = (0, 9) /\
    start self = (0, 4).
Proof.
  destruct (init_never_fails (Some "") (0, 9) None)
    as (self & Hinit & _ & Hsize & Hstart).
  exists self. split; [exact Hinit |]. split; [exact Hsize | exact Hstart].
Defined.

(** * Further properties *)

(** ** Decoding: shape, case, concatenation *)

Lemma for_each_Forall2 {A B} (f : A -> result B) (l : list A) (r : list B) :
  for_each f l = Ok r -> Forall2 (fun a b => f a = Ok b) l r.
Proof.
  revert r. induction l as [|a l IH]; intros r; simpl.
  - intros [= <-]. constructor.
  - destruct (f a) as [b|] eqn:Ea; simpl; [| done].
    destruct (for_each f l) as [r'|]; simpl; [| done].
    intros [= <-]. constructor; [done | by apply IH].
Qed.

Lemma for_each_ext {A B} (f g : A -> result B) (l : list A) :
  Forall (fun a => f a = g a) l -> for_each f l = for_each g l.
Proof.
  induction 1 as [|a l Ha _ IH]; simpl; [done |]. by rewrite Ha, IH.
Qed.

Lemma for_each_map {A B C} (f : B -> result C) (g : A -> B) (l : list A) :
  for_each f (map g l) = for_each (fun a => f (g a)) l.
Proof.
  induction l as [|a l IH]; simpl; [done |]. by rewrite IH.
Qed.

(** The three loops succeed with [ds] exactly when the slices decode one
    by one to lists that concatenate to [ds]. *)
Lemma decode_chunks_Ok (chunks : list string) (ds : list Move) :
  decode_chunks chunks = Ok ds <->
  exists dss, for_each decode_chunk chunks = Ok dss /\ ds = concat dss.
Proof.
  split.
  - intros H. destruct (for_each decode_chunk chunks) as [dss | e] eqn:E.
    + exists dss. split; [done |].
      rewrite (decode_chunks_ok _ _ E) in H. by injection H.
    + assert (Hf : fails (decode_chunks chunks))
        by (apply decode_chunks_fails; rewrite E; by eexists).
      destruct Hf as [e' He']. congruence.
  - intros (dss & Hd & ->). by apply decode_chunks_ok.
Qed.

Lemma hex_to_dirs_Ok_even (s : string) (ds : list Move) :
  hex_to_dirs s = Ok ds -> Py.len s mod 2 = 0.
Proof.
  intros H. destruct (decide (Py.len s mod 2 = 0)) as [|Hodd]; [done |].
  by rewrite hex_to_dirs_odd in H.
Qed.

Lemma hex_to_dirs_Ok (s : string) (ds : list Move) :
  hex_to_dirs s = Ok ds <->
  Py.len s mod 2 = 0 /\
  exists dss, for_each decode_chunk (Py.slices2 s) = Ok dss /\ ds = concat dss.
Proof.
  split.
  - intros H. pose proof (hex_to_dirs_Ok_even _ _ H) as Hev. split; [done |].
    rewrite hex_to_dirs_even in H by done. by apply decode_chunks_Ok.
  - intros [Hev H]. rewrite hex_to_dirs_even by done. by apply decode_chunks_Ok.
Qed.

Lemma length_slices2 (s : string) :
  Py.len s mod 2 = 0 -> Z.of_nat (length (Py.slices2 s)) = Py.len s / 2.
Proof.
  induction s as [| a | a b r IH] using string_pair_ind; intros Hev.
  - reflexivity.
  - by vm_compute in Hev.
  - rewrite even_cons2 in Hev. rewrite half_cons2. simpl length.
    specialize (IH Hev). lia.
Qed.

Lemma is_move_b_spec (m : Move) : is_move_b m = true <-> is_move m.
Proof.
  unfold is_move_b, is_move.
  rewrite !orb_true_iff, !bool_decide_eq_true. tauto.
Qed.

Lemma decode_pair_shape (a b : ascii) (d : list Move) :
  decode_chunk (pair_str a b) = Ok d -> length d = 4%nat /\ Forall is_move d.
Proof.
  assert (H : forall a b,
    match decode_chunk (pair_str a b) with
    | Ok d => (length d =? 4)%nat && forallb is_move_b d
    | Raise _ => true
    end = true).
  { intros a' b'. revert b'. apply forall_ascii_spec. revert a'.
    apply forall_ascii_spec. vm_compute. reflexivity. }
  intros Hd. specialize (H a b). rewrite Hd in H.
  apply andb_prop in H as [Hl Hm]. split; [by apply Nat.eqb_eq |].
  apply forallb_Forall in Hm. eapply Forall_impl; [exact Hm |].
  intros m. apply is_move_b_spec.
Qed.

Lemma length_concat_uniform {A} (ls : list (list A)) (k : nat) :
  Forall (fun l => length l = k) ls -> length (concat ls) = (length ls * k)%nat.
Proof.
  induction 1 as [|l ls Hl _ IH]; simpl; [done |].
  rewrite length_app, Hl, IH. lia.
Qed.

Lemma decoded_shape (s : string) (ds : list Move) :
  hex_to_dirs s = Ok ds ->
  Z.of_nat (length ds) = 4 * (Py.len s / 2) /\ Forall is_move ds.
Proof.
  intros H. apply hex_to_dirs_Ok in H as (Hev & dss & Hdss & ->).
  pose proof (slices2_pairs _ Hev) as Hp.
  pose proof (for_each_Forall2 _ _ _ Hdss) as H2.
  assert (Hall : Forall (fun d => length d = 4%nat /\ Forall is_move d) dss).
  { clear Hdss. induction H2 as [|c d cs dss' Hcd _ IH]; [constructor |].
    apply Forall_cons in Hp as [(a & b & ->) Hp].
    constructor; [by apply (decode_pair_shape a b) | by apply IH]. }
  split.
  - rewrite (length_concat_uniform dss 4).
    + rewrite (for_each_length _ _ _ Hdss).
      pose proof (length_slices2 _ Hev). lia.
    + eapply Forall_impl; [exact Hall |]. by intros d [Hd _].
  - apply Forall_concat. eapply Forall_impl; [exact Hall |]. by intros d [_ Hd].
Qed.

(** X1. Whenever [hex_to_dirs] returns, on any string at all, the list
    holds exactly 4 * (len / 2) moves and each of them is one of NW, NE,
    SW, SE. *)
Theorem hex_to_dirs_shape (hex_string : string) (directions : list Move) :
  hex_to_dirs hex_string = Ok directions ->
  Z.of_nat (length directions) = 4 * (Py.len hex_string / 2) /\
  Forall is_move directions.
Proof.
  apply decoded_shape.
Qed.

Lemma hex_to_dirs_shape_witness :
  Z.of_nat (length [SE; NW; NW; NW; NE; NW; NW; NW]) = 4 * (Py.len " 3+1" / 2) /\
  Forall is_move [SE; NW; NW; NW; NE; NW; NW; NW].
Proof.
  apply (hex_to_dirs_shape " 3+1"). vm_compute. reflexivity.
Defined.

Lemma len_map_str (f : ascii -> ascii) (s : string) :
  Py.len (Py.map_str f s) = Py.len s.
Proof.
  unfold Py.len. f_equal. induction s as [|c s IH]; simpl; [done | by rewrite IH].
Qed.

Lemma slices2_map_str (f : ascii -> ascii) (s : string) :
  Py.slices2 (Py.map_str f s) = map (Py.map_str f) (Py.slices2 s).
Proof.
  induction s as [| a | a b r IH] using string_pair_ind; simpl; [done | done |].
  by rewrite IH.
Qed.

Lemma bin_byte_lower_pair (a b : ascii) :
  bin_byte (pair_str (to_lower a) (to_lower b)) = bin_byte (pair_str a b).
Proof.
  apply (bool_decide_eq_true_1 _). revert b. apply forall_ascii_spec.
  revert a. apply forall_ascii_spec. vm_compute. reflexivity.
Qed.

(** X2. Decoding ignores the case of letters: replacing the capital letters
    A-Z of any string by small letters changes neither the moves nor the
    exception of [hex_to_dirs], and so neither the room nor the text. *)
Theorem hex_to_dirs_ignores_case (self : RandomArt) (hex_string : string) :
  hex_to_dirs (lower_str hex_string) = hex_to_dirs hex_string /\
  get_room self (lower_str hex_string) = get_room self hex_string /\
  __call__ self (lower_str hex_string) = __call__ self hex_string.
Proof.
  assert (H : hex_to_dirs (lower_str hex_string) = hex_to_dirs hex_string).
  { unfold lower_str.
    destruct (decide (Py.len hex_string mod 2 = 0)) as [Hev | Hodd].
    - rewrite !hex_to_dirs_even by (by rewrite ?len_map_str).
      unfold decode_chunks. rewrite slices2_map_str, for_each_map.
      rewrite (for_each_ext _ bin_byte); [done |].
      eapply Forall_impl; [apply (slices2_pairs _ Hev) |].
      intros c (a & b & ->). apply bin_byte_lower_pair.
    - by rewrite !hex_to_dirs_odd by (by rewrite ?len_map_str). }
  split; [exact H |].
  unfold __call__, get_room, get_room_end. by rewrite H.
Qed.

(** ** Decoding: concatenation *)

Lemma even_app (s t : string) :
  Py.len s mod 2 = 0 -> Py.len (s +:+ t) mod 2 = Py.len t mod 2.
Proof.
  intros Hs. rewrite len_app, Z.add_mod, Hs by lia. simpl.
  apply Z.mod_mod. lia.
Qed.

Lemma slices2_app (s t : string) :
  Py.len s mod 2 = 0 ->
  Py.slices2 (s +:+ t) = Py.slices2 s ++ Py.slices2 t.
Proof.
  induction s as [| a | a b r IH] using string_pair_ind; intros Hev.
  - reflexivity.
  - by vm_compute in Hev.
  - rewrite even_cons2 in Hev. rewrite !app_cons_str. simpl.
    by rewrite IH.
Qed.

Lemma decode_app (s1 s2 : string) (d1 d2 : list Move) :
  hex_to_dirs s1 = Ok d1 -> hex_to_dirs s2 = Ok d2 ->
  hex_to_dirs (s1 +:+ s2) = Ok (d1 ++ d2).
Proof.
  intros H1 H2.
  apply hex_to_dirs_Ok in H1 as (Hev & dss1 & Hd1 & ->).
  apply hex_to_dirs_Ok in H2 as (Hev2 & dss2 & Hd2 & ->).
  apply hex_to_dirs_Ok. split; [by rewrite even_app |].
  exists (dss1 ++ dss2). rewrite slices2_app, for_each_app, Hd1, Hd2 by done.
  split; [done |]. by rewrite concat_app.
Qed.

(** X3. Decoding is compatible with concatenation: when the first string
    has even length, the concatenation decodes exactly when both strings
    do, and its moves are the moves of the first followed by the moves of
    the second. *)
Theorem hex_to_dirs_app (s1 s2 : string) :
  Py.len s1 mod 2 = 0 ->
  (succeeds (hex_to_dirs (s1 +:+ s2)) <->
   succeeds (hex_to_dirs s1) /\ succeeds (hex_to_dirs s2)) /\
  (forall d1 d2,
     hex_to_dirs s1 = Ok d1 -> hex_to_dirs s2 = Ok d2 ->
     hex_to_dirs (s1 +:+ s2) = Ok (d1 ++ d2)).
Proof.
  intros Hev.
  assert (Hcat : forall d1 d2,
     hex_to_dirs s1 = Ok d1 -> hex_to_dirs s2 = Ok d2 ->
     hex_to_dirs (s1 +:+ s2) = Ok (d1 ++ d2)).
  { intros d1 d2. apply decode_app. }
  split; [| exact Hcat]. split.
  - intros [ds Hds]. apply hex_to_dirs_Ok in Hds as (Hev12 & dss & Hdss & ->).
    rewrite even_app in Hev12 by done.
    rewrite slices2_app, for_each_app in Hdss by done.
    destruct (for_each decode_chunk (Py.slices2 s1)) as [dss1|] eqn:E1;
      simpl in Hdss; [| done].
    destruct (for_each decode_chunk (Py.slices2 s2)) as [dss2|] eqn:E2;
      simpl in Hdss; [| done].
    split; eexists; apply hex_to_dirs_Ok; eauto.
  - intros [[d1 H1] [d2 H2]]. exists (d1 ++ d2). by apply Hcat.
Qed.

Lemma hex_to_dirs_app_witness :
  hex_to_dirs ("1b" +:+ "00") = Ok ([SE; SW; NE; NW] ++ [NW; NW; NW; NW]).
Proof.
  apply (proj2 (hex_to_dirs_app "1b" "00" eq_refl)); vm_compute; reflexivity.
Defined.

(** ** Decoding: distinct fingerprints, distinct walks *)

Lemma hex_digit_range (c : ascii) (x : Z) : hex_digit c = Some x -> 0 <= x < 16.
Proof.
  assert (H : forall c,
    match hex_digit c with Some x => (0 <=? x) && (x <? 16) | None => true end
    = true) by (apply forall_ascii_spec; vm_compute; reflexivity).
  intros Hc. specialize (H c). rewrite Hc in H.
  apply andb_prop in H as [H1 H2]. lia.
Qed.

Lemma byte_moves_inj (v w : Z) :
  0 <= v < 256 -> 0 <= w < 256 -> byte_moves v = byte_moves w -> v = w.
Proof.
  assert (H : forallb (fun v => forallb (fun w =>
      implb (bool_decide (byte_moves v = byte_moves w)) (v =? w))
      (seqZ 0 256)) (seqZ 0 256) = true) by (vm_compute; reflexivity).
  intros Hv Hw Heq. rewrite forallb_Forall, Forall_forall in H.
  specialize (H v ltac:(apply elem_of_seqZ; lia)).
  rewrite forallb_Forall, Forall_forall in H.
  specialize (H w ltac:(apply elem_of_seqZ; lia)).
  rewrite bool_decide_eq_true_2 in H by done. simpl in H. lia.
Qed.

Lemma reference_decode_cons2 (a b : ascii) (r : string) :
  reference_decode (String a (String b r))
  = match hex_digit a, hex_digit b, reference_decode r with
    | Some x, Some y, Some ms => Some (byte_moves (16 * x + y) ++ ms)
    | _, _, _ => None
    end.
Proof. reflexivity. Qed.

Lemma reference_decode_inj (s1 s2 : string) (ms : list Move) :
  reference_decode s1 = Some ms -> reference_decode s2 = Some ms ->
  hex_values s1 = hex_values s2.
Proof.
  revert s2 ms.
  induction s1 as [| a | a b r IH] using string_pair_ind; intros s2 ms H1 H2.
  - injection H1 as <-. destruct s2 as [| a2 [| b2 r2]]; [done | done |].
    rewrite reference_decode_cons2 in H2.
    destruct (hex_digit a2), (hex_digit b2), (reference_decode r2); done.
  - done.
  - rewrite reference_decode_cons2 in H1.
    destruct (hex_digit a) as [x|] eqn:Ea; [| done].
    destruct (hex_digit b) as [y|] eqn:Eb; [| done].
    destruct (reference_decode r) as [ms1|] eqn:Er; [| done].
    destruct s2 as [| a2 [| b2 r2]]; [| done |].
    { assert (Hnil : byte_moves (16 * x + y) ++ ms1 = [])
        by (change (reference_decode "") with (Some (@nil Move)) in H2; congruence).
      apply (f_equal length) in Hnil.
      rewrite length_app, length_byte_moves in Hnil. done. }
    rewrite reference_decode_cons2 in H2.
    destruct (hex_digit a2) as [x2|] eqn:Ea2; [| done].
    destruct (hex_digit b2) as [y2|] eqn:Eb2; [| done].
    destruct (reference_decode r2) as [ms2|] eqn:Er2; [| done].
    assert (H2' : byte_moves (16 * x2 + y2) ++ ms2 = byte_moves (16 * x + y) ++ ms1)
      by congruence.
    clear H1 H2.
    apply app_inj_1 in H2' as [Hb Hms]; [| by rewrite !length_byte_moves].
    subst ms2.
    pose proof (hex_digit_range _ _ Ea). pose proof (hex_digit_range _ _ Eb).
    pose proof (hex_digit_range _ _ Ea2). pose proof (hex_digit_range _ _ Eb2).
    apply byte_moves_inj in Hb; [| lia | lia].
    simpl. rewrite Ea, Eb, Ea2, Eb2. rewrite (IH r2 ms1 eq_refl Er2).
    do 2 f_equal; f_equal; lia.
Qed.

(** X4. Two valid hex strings that decode to the same moves have the same
    digit values, position by position: they are the same fingerprint up to
    the case of the letters. *)
Theorem hex_to_dirs_injective (s1 s2 : string) :
  valid_hex s1 -> valid_hex s2 ->
  hex_to_dirs s1 = hex_to_dirs s2 ->
  hex_values s1 = hex_values s2.
Proof.
  intros Hv1 Hv2 Heq.
  destruct (valid_hex_decodes _ Hv1) as (m1 & Hr1 & Hd1 & _).
  destruct (valid_hex_decodes _ Hv2) as (m2 & Hr2 & Hd2 & _).
  rewrite Hd1, Hd2 in Heq. injection Heq as <-.
  by apply (reference_decode_inj _ _ m1).
Qed.

Lemma hex_to_dirs_injective_witness : hex_values "Fc94" = hex_values "fC94".
Proof.
  apply hex_to_dirs_injective; [split; reflexivity | split; reflexivity |].
  vm_compute. reflexivity.
Defined.

(** ** Decoding: which exception *)

Lemma int16_raises (s : string) (e : exn) : Py.int16 s = Raise e -> e = ValueError.
Proof.
  unfold Py.int16. intros H.
  repeat match type of H with
  | context [let '(_, _) := ?x in _] => destruct x
  | context [match ?x with _ => _ end] => destruct x
  | context [if ?x then _ else _] => destruct x
  end; congruence.
Qed.

Lemma bin_byte_is_ok (c : string) : is_ok (bin_byte c) = negb (int_rejects c).
Proof. unfold bin_byte, int_rejects. by destruct (Py.int16 c). Qed.

Lemma bin_byte_raises (c : string) (e : exn) : bin_byte c = Raise e -> e = ValueError.
Proof.
  unfold bin_byte. destruct (Py.int16 c) eqn:E; simpl; [done |].
  intros [= <-]. by apply (int16_raises c).
Qed.

Lemma for_each_raises {A B} (f : A -> result B) (l : list A) (e : exn) :
  for_each f l = Raise e -> exists a, a ∈ l /\ f a = Raise e.
Proof.
  induction l as [|a l IH]; simpl; [done |].
  destruct (f a) as [b | e'] eqn:Ea; simpl.
  - destruct (for_each f l) as [r | e'']; simpl; [done |].
    intros [= <-]. destruct (IH eq_refl) as (a' & Hin & Ha').
    exists a'. split; [by apply list_elem_of_further | done].
  - intros [= <-]. exists a. split; [apply list_elem_of_here | done].
Qed.

Lemma existsb_false_Forall {A} (f : A -> bool) (l : list A) :
  existsb f l = false <-> Forall (fun a => f a = false) l.
Proof.
  induction l as [|a l IH]; simpl; [by split; [constructor |] |].
  rewrite orb_false_iff, IH, Forall_cons. done.
Qed.

(** X5. When [hex_to_dirs] raises, the exception is the first of these that
    applies: [AssertionError] for an odd length; [ValueError] when [int]
    rejects some slice, wherever it stands; [KeyError] otherwise (a slice
    read as a negative number). *)
Theorem hex_to_dirs_exception (hex_string : string) (e : exn) :
  hex_to_dirs hex_string = Raise e -> e = first_exception hex_string.
Proof.
  unfold first_exception.
  destruct (Z.eqb_spec (Py.len hex_string mod 2) 0) as [Hev | Hodd]; simpl.
  - rewrite hex_to_dirs_even by done. unfold decode_chunks.
    destruct (for_each bin_byte (Py.slices2 hex_string)) as [bs | e'] eqn:E; simpl.
    + assert (Hall : existsb int_rejects (Py.slices2 hex_string) = false).
      { apply existsb_false_Forall.
        assert (Hs : succeeds (for_each bin_byte (Py.slices2 hex_string)))
          by (by exists bs).
        apply for_each_Forall in Hs. eapply Forall_impl; [exact Hs |].
        intros c Hc. apply is_ok_succeeds in Hc. rewrite bin_byte_is_ok in Hc.
        by destruct (int_rejects c). }
      rewrite Hall. intros H. apply for_each_raises in H as (k & _ & Hk).
      unfold dict_item in Hk. destruct (direction_map !! k); congruence.
    + intros [= <-]. apply for_each_raises in E as (c & Hin & Hc).
      assert (Hex : existsb int_rejects (Py.slices2 hex_string) = true).
      { apply existsb_exists. exists c. split; [by apply list_elem_of_In |].
        pose proof (bin_byte_is_ok c) as Hb. rewrite Hc in Hb. simpl in Hb.
        by destruct (int_rejects c). }
      rewrite Hex. by apply (bin_byte_raises c).
  - rewrite hex_to_dirs_odd by done. by intros [= <-].
Qed.

Lemma hex_to_dirs_exception_witness :
  ValueError = first_exception "-1zz" /\ KeyError = first_exception "-1".
Proof.
  split; apply hex_to_dirs_exception; vm_compute; reflexivity.
Defined.

(** ** The walk: steps and counters *)

(** X6. From a cell of the room, one of the four moves changes each
    coordinate by at most one; away from the walls it is the full diagonal
    step; and the position stays as it is exactly when the move points out
    of the room on both axes, which happens in a corner only. *)
Theorem step_is_local (self : RandomArt) (p : Z * Z) (m : Move) :
  in_room self p ->
  is_move m ->
  let w := fst (room_size self) in
  let h := snd (room_size self) in
  let p' := get_position self p m in
  Z.abs (fst p' - fst p) <= 1 /\
  Z.abs (snd p' - snd p) <= 1 /\
  (0 < fst p < w - 1 -> fst p' = fst p + fst m) /\
  (0 < snd p < h - 1 -> snd p' = snd p + snd m) /\
  (p' = p <-> clamped (fst p) (fst m) w /\ clamped (snd p) (snd m) h) /\
  (p' = p -> is_corner self p).
Proof.
  intros [Hx Hy] Hm w h p'. destruct p as [x y]. simpl in Hx, Hy.
  assert (Hp' : p' = (Z.max (Z.min (x + fst m) (w - 1)) 0,
                      Z.max (Z.min (y + snd m) (h - 1)) 0)).
  { subst p'. destruct m as [dx dy]. apply get_position_clamp. }
  rewrite Hp'. unfold clamped, is_corner. simpl fst; simpl snd. fold w h.
  assert (Hd : (fst m = 1 \/ fst m = -1) /\ (snd m = 1 \/ snd m = -1)).
  { destruct Hm as [-> | [-> | [-> | ->]]]; simpl; lia. }
  destruct Hd as [Hdx Hdy].
  split; [lia |]. split; [lia |]. split; [lia |]. split; [lia |].
  split; [split |].
  - intros [= H1 H2]. lia.
  - intros [H1 H2]. f_equal; lia.
  - intros [= H1 H2]. lia.
Qed.

Lemma step_is_local_witness :
  let self := mkRandomArt None (17, 9) (8, 4) in
  fst (get_position self (8, 4) SE) = 9 /\
  snd (get_position self (16, 3) SE) = 4 /\
  Z.abs (fst (get_position self (16, 3) SE) - 16) <= 1.
Proof.
  intros self.
  assert (Hm : is_move SE) by (do 3 right; reflexivity).
  assert (H1 : in_room self (8, 4)) by (unfold in_room; simpl; lia).
  assert (H2 : in_room self (16, 3)) by (unfold in_room; simpl; lia).
  destruct (step_is_local self (8, 4) SE H1 Hm) as (_ & _ & Hx1 & _).
  destruct (step_is_local self (16, 3) SE H2 Hm) as (Hax & _ & _ & Hy2 & _).
  split; [apply Hx1; simpl; lia |].
  split; [apply Hy2; simpl; lia | exact Hax].
Defined.

Lemma fold_walk_dom (self : RandomArt) (directions : list Move)
    (room : gmap (Z * Z) Z) (cur p : Z * Z) :
  is_Some (fst (fold_left (walk_step self) directions (room, cur)) !! p) <->
  is_Some (room !! p) \/ p ∈ positions self cur directions.
Proof.
  split; [apply fold_walk_keys |].
  revert room cur. induction directions as [|d ds IH]; intros room cur.
  - intros [H | H]; [done | by apply elem_of_nil in H].
  - simpl. intros [H | H]; apply IH.
    + left. destruct (decide (get_position self cur d = p)) as [<- | Hne].
      * by rewrite lookup_insert_eq.
      * by rewrite lookup_insert_ne.
    + apply elem_of_cons in H as [-> | H]; [left | by right].
      by rewrite lookup_insert_eq.
Qed.

Lemma occurrences_pos (p : Z * Z) (ps : list (Z * Z)) :
  p ∈ ps -> 1 <= occurrences p ps.
Proof.
  unfold occurrences. induction ps as [|q ps IH]; intros H.
  - by apply elem_of_nil in H.
  - rewrite filter_cons. apply elem_of_cons in H as [-> | H].
    + rewrite decide_True by done. simpl. lia.
    + specialize (IH H). case_decide; simpl; lia.
Qed.

Lemma walk_end (self : RandomArt) (directions : list Move) :
  snd (walk self directions)
  = default (start self) (last (positions self (start self) directions)).
Proof. unfold walk. apply fold_walk_end. Qed.

Lemma get_room_entries (self : RandomArt) (hex_string : string)
    (room : gmap (Z * Z) Z) :
  get_room self hex_string = Ok room ->
  exists directions,
    hex_to_dirs hex_string = Ok directions /\
    let ps := positions self (start self) directions in
    let finish := default (start self) (last ps) in
    (forall p, is_Some (room !! p) <-> p = start self \/ p ∈ ps) /\
    (forall p, p <> start self -> p <> finish ->
               counter_get room p = occurrences p ps) /\
    (forall p v, room !! p = Some v -> 1 <= v).
Proof.
  intros H. destruct (hex_to_dirs hex_string) as [directions | e] eqn:E.
  2:{ unfold get_room, get_room_end in H. by rewrite E in H. }
  rewrite (get_room_ok _ _ _ E) in H. injection H as <-.
  exists directions. split; [done |]. intros ps finish.
  rewrite walk_end. fold ps finish.
  assert (Hfin : finish = start self \/ finish ∈ ps).
  { subst finish. destruct (last ps) as [q|] eqn:El; [right | by left].
    by apply last_Some_elem_of. }
  assert (Hdom : forall p, is_Some (fst (walk self directions) !! p) <-> p ∈ ps).
  { intros p. unfold walk. rewrite fold_walk_dom, lookup_empty.
    split; [intros [[? ?] | ?]; done | by right]. }
  assert (Hcnt : forall p, counter_get (fst (walk self directions)) p
                           = occurrences p ps) by apply walk_counts.
  split; [| split].
  - intros p. destruct (decide (p = finish)) as [-> | Hnf].
    + rewrite lookup_insert_eq. split; [by destruct Hfin; auto | by eexists].
    + rewrite lookup_insert_ne by done.
      destruct (decide (p = start self)) as [-> | Hns].
      * rewrite lookup_insert_eq. split; [by left | by eexists].
      * rewrite lookup_insert_ne by done. rewrite Hdom. split; [by right |].
        by intros [? | ?].
  - intros p Hns Hnf. unfold counter_get.
    rewrite !lookup_insert_ne by done. apply Hcnt.
  - intros p v. destruct (decide (p = finish)) as [-> | Hnf].
    + rewrite lookup_insert_eq. intros [= <-]. lia.
    + rewrite lookup_insert_ne by done.
      destruct (decide (p = start self)) as [-> | Hns].
      * rewrite lookup_insert_eq. intros [= <-]. lia.
      * rewrite lookup_insert_ne by done. intros Hv.
        assert (Hin : p ∈ ps) by (apply Hdom; by eexists).
        pose proof (occurrences_pos _ _ Hin) as Hocc.
        rewrite <- Hcnt in Hocc. unfold counter_get in Hocc.
        by rewrite Hv in Hocc.
Qed.

(** X7. The room [get_room] returns holds an entry exactly for the start
    cell and the cells the walk stood on; away from the start and end cells
    the entry is the number of times the walk stood there; and no entry is
    below 1, so that a cell reads 0 only if it has no entry. *)
Theorem get_room_counts (self : RandomArt) (hex_string : string)
    (room : gmap (Z * Z) Z) :
  get_room self hex_string = Ok room ->
  exists directions,
    hex_to_dirs hex_string = Ok directions /\
    let ps := positions self (start self) directions in
    let finish := default (start self) (last ps) in
    (forall p, is_Some (room !! p) <-> p = start self \/ p ∈ ps) /\
    (forall p, p <> start self -> p <> finish ->
               counter_get room p = occurrences p ps) /\
    (forall p v, room !! p = Some v -> 1 <= v).
Proof.
  apply get_room_entries.
Qed.

Lemma get_room_counts_witness :
  exists room,
    get_room (mkRandomArt None (17, 9) (8, 4)) "cc00" = Ok room /\
    counter_get room (7, 3) = 3 /\
    counter_get room (0, 0) = 0.
Proof.
  set (self := mkRandomArt None (17, 9) (8, 4)).
  destruct (get_room self "cc00") as [room | e] eqn:E;
    [| by vm_compute in E].
  exists room. split; [done |].
  destruct (get_room_counts self "cc00" room E) as (ds & Hds & _ & Hcnt & _).
  assert (ds = [NW; SE; NW; SE; NW; NW; NW; NW])
    by (vm_compute in Hds; by injection Hds as <-).
  subst ds.
  split; (rewrite Hcnt;
          [vm_compute; reflexivity | intros [=] | vm_compute; intros [=]]).
Defined.

(** ** The walk: every move is counted *)

Lemma total_count_step (room : gmap (Z * Z) Z) (k : Z * Z) :
  total_count (<[k := counter_get room k + 1]> room) = total_count room + 1.
Proof.
  unfold total_count, counter_get.
  assert (Hcomm : forall (m : gmap (Z * Z) Z) (j1 j2 : Z * Z) (z1 z2 y : Z),
            j1 <> j2 -> m !! j1 = Some z1 -> m !! j2 = Some z2 ->
            z1 + (z2 + y) = z2 + (z1 + y)) by (intros; lia).
  destruct (room !! k) as [v|] eqn:E; simpl.
  - rewrite <- insert_delete_eq.
    rewrite map_fold_insert_L; [| by eauto | apply lookup_delete_eq].
    rewrite (map_fold_delete_L _ _ k v room); [lia | by eauto | done].
  - rewrite map_fold_insert_L; [lia | by eauto | done].
Qed.

Lemma fold_walk_total (self : RandomArt) (directions : list Move)
    (room : gmap (Z * Z) Z) (cur : Z * Z) :
  total_count (fst (fold_left (walk_step self) directions (room, cur)))
  = total_count room + Z.of_nat (length directions).
Proof.
  revert room cur. induction directions as [|d ds IH]; intros room cur.
  - simpl. lia.
  - simpl fold_left. rewrite IH, total_count_step. simpl length. lia.
Qed.

(** X8. The loop of [get_room] loses no move: before the start and end
    markers are written, the counters of the room add up to the number of
    moves, which is 4 * (len / 2) for a decoded string. *)
Theorem walk_counts_every_move (self : RandomArt) (hex_string : string)
    (directions : list Move) :
  hex_to_dirs hex_string = Ok directions ->
  total_count (fst (walk self directions)) = Z.of_nat (length directions) /\
  total_count (fst (walk self directions)) = 4 * (Py.len hex_string / 2).
Proof.
  intros H.
  assert (Ht : total_count (fst (walk self directions))
               = Z.of_nat (length directions)).
  { unfold walk. rewrite fold_walk_total. unfold total_count.
    rewrite map_fold_empty. lia. }
  split; [exact Ht |]. rewrite Ht. by apply decoded_shape.
Qed.

Lemma walk_counts_every_move_witness :
  total_count (fst (walk (mkRandomArt None (17, 9) (8, 4))
                      [NW; SE; NW; SE; NW; NW; NW; NW])) = 8.
Proof.
  assert (Hd : hex_to_dirs "cc00" = Ok [NW; SE; NW; SE; NW; NW; NW; NW])
    by (vm_compute; reflexivity).
  exact (proj1 (walk_counts_every_move _ "cc00" _ Hd)).
Defined.

(** ** The rendered text: lines *)

Lemma upper_lines_lookup (self : RandomArt) (room : gmap (Z * Z) Z) (y : Z) :
  0 <= y < snd (room_size self) ->
  upper_lines self room !! S (Z.to_nat y) = Some (body_row self room y).
Proof.
  intros Hy. unfold upper_lines. simpl. rewrite list_lookup_fmap.
  unfold Py.range. rewrite lookup_seqZ_lt by lia. simpl. do 2 f_equal. lia.
Qed.

(** X9. Whatever the label and the counters, the first line of the text is
    the plain border and line [y + 1] is row [y] of the room: a bar, the
    glyphs of the cells (0, y), (1, y), ... in that order, a bar; so the
    character at line [y + 1], column [x + 1] is the glyph of cell (x, y). *)
Theorem display_rows (self : RandomArt) (room : gmap (Z * Z) Z) (x y : Z) :
  0 <= y < snd (room_size self) ->
  let w := fst (room_size self) in
  let lines := Py.split_lines (display self room) in
  lines !! 0%nat = Some ("+" +:+ Py.str_mul "-" w +:+ "+") /\
  lines !! S (Z.to_nat y)
  = Some ("|" +:+ cat (map (fun x => get_coin_sym (counter_get room (x, y)))
                         (Py.range w)) +:+ "|") /\
  (0 <= x < w ->
   exists c, get_coin_sym (counter_get room (x, y)) = String c "" /\
             cell_char w (display self room) x y = Some c).
Proof.
  intros Hy w lines. subst lines. rewrite split_lines_display.
  split; [reflexivity |]. split.
  - rewrite lookup_app_l.
    + by rewrite upper_lines_lookup.
    + rewrite length_upper_lines. lia.
  - intros Hx. destruct (get_coin_sym_char (counter_get room (x, y))) as (c & Hc & _).
    exists c. split; [done |]. by apply (cell_shows self room (x, y)).
Qed.

Lemma display_rows_witness :
  let self := mkRandomArt (Some "MD5") (5, 2) (2, 1) in
  Py.split_lines (display self (<[ (1, 1) := 3 ]> {[ (4, 1) := 16 ]})) !! 2%nat
  = Some "| +  E|".
Proof.
  intros self.
  exact (proj1 (proj2 (display_rows self (<[ (1, 1) := 3 ]> {[ (4, 1) := 16 ]}) 0 1
                         ltac:(simpl; lia)))).
Defined.

(** ** The rendered text: the label *)

Lemma land_land_1 (a b : Z) :
  Z.land (Z.land a b) 1 = if Z.odd a && Z.odd b then 1 else 0.
Proof.
  assert (Z.land (Z.land a b) 1 = Z.land a b mod 2) as ->
    by exact (Z.land_ones (Z.land a b) 1 ltac:(lia)).
  rewrite Zmod_odd. rewrite <- !Z.bit0_odd, Z.land_spec. done.
Qed.

Lemma center_pads (s : string) (width : Z) :
  Py.len s <= width ->
  exists left right,
    0 <= right /\ 0 <= left /\
    left + right = width - Py.len s /\
    left - right = (if Z.odd (width - Py.len s)
                    then if Z.odd width then 1 else -1
                    else 0) /\
    Py.center s width "-" = Py.str_mul "-" left +:+ s +:+ Py.str_mul "-" right.
Proof.
  intros Hle. unfold Py.center.
  destruct (Z.leb_spec width (Py.len s)) as [Hw | Hw].
  - assert (width = Py.len s) as -> by lia.
    exists 0, 0. rewrite Z.sub_diag. simpl Z.odd. cbv iota.
    repeat split; try lia. unfold Py.str_mul. simpl.
    by rewrite app_nil_str, app_empty_r.
  - set (marg := width - Py.len s) in *. rewrite land_land_1.
    exists (marg / 2 + (if Z.odd marg && Z.odd width then 1 else 0)),
           (marg - (marg / 2 + (if Z.odd marg && Z.odd width then 1 else 0))).
    pose proof (Zmod_odd marg) as Hodd.
    pose proof (Z.div_mod marg 2 ltac:(lia)) as Hdm.
    destruct (Z.odd marg), (Z.odd width); simpl andb; cbv iota;
      repeat split; lia.
Qed.

(** X10. A label that fits (not empty, its length plus the two brackets at
    most the width) is centred in the last line: the bracketed label stands
    between [left] and [right] dashes that fill the width and differ by at
    most one, the longer side being the left one for an odd width and the
    right one for an even width. *)
Theorem label_is_centred (self : RandomArt) (room : gmap (Z * Z) Z)
    (label : string) :
  hashalg self = Some label ->
  label <> "" ->
  no_newline label ->
  Py.len label + 2 <= fst (room_size self) ->
  let w := fst (room_size self) in
  exists left right,
    0 <= right /\ 0 <= left /\
    left + right = w - (Py.len label + 2) /\
    left - right = (if Z.odd (w - (Py.len label + 2))
                    then if Z.odd w then 1 else -1
                    else 0) /\
    last (Py.split_lines (display self room))
    = Some (labelled_border left label right).
Proof.
  intros Hl Hne Hnl Hfit w.
  assert (Hlen : Py.len ("[" +:+ label +:+ "]") = Py.len label + 2).
  { rewrite !len_app. change (Py.len "[") with 1. change (Py.len "]") with 1. lia. }
  destruct (center_pads ("[" +:+ label +:+ "]") w ltac:(lia))
    as (left & right & Hr & Hle & Hsum & Hdiff & Hc).
  rewrite Hlen in Hsum, Hdiff.
  exists left, right. repeat split; try done.
  rewrite split_lines_display.
  assert (Hb : bottom_line self = labelled_border left label right).
  { unfold bottom_line, labelled_border. rewrite Hl.
    destruct (String.eqb_spec label "") as [| _]; [done |]. simpl.
    fold w. rewrite Hc. by rewrite !app_assoc_str. }
  assert (Hfits : label_fits self).
  { unfold label_fits. rewrite Hl. right. by split. }
  destruct (bottom_line_fits self ltac:(fold w; pose proof (len_nonneg label); lia) Hfits)
    as [_ Hnlb].
  rewrite (split_lines_no_newline _ Hnlb), last_snoc. by rewrite Hb.
Qed.

Lemma label_is_centred_witness :
  exists left right,
    left - right = -1 /\
    last (Py.split_lines (display (mkRandomArt (Some "MD5") (8, 2) (4, 1)) ∅))
    = Some (labelled_border left "MD5" right).
Proof.
  assert (Hnl : no_newline "MD5").
  { repeat (apply no_newline_cons; split; [discriminate |]).
    apply no_newline_empty. }
  destruct (label_is_centred (mkRandomArt (Some "MD5") (8, 2) (4, 1)) ∅ "MD5"
              eq_refl ltac:(discriminate) Hnl ltac:(vm_compute; discriminate))
    as (left & right & _ & _ & _ & Hdiff & Hlast).
  exists left, right. split; [exact Hdiff | exact Hlast].
Defined.

(** X11. A label that does not fit is never cut: when its length plus the
    two brackets reaches or exceeds the width, the last line is ['+'], the
    bracketed label whole, ['+'], with no dash, and is longer than the other
    lines as soon as the width is exceeded. *)
Theorem label_is_never_cut (self : RandomArt) (room : gmap (Z * Z) Z)
    (label : string) :
  hashalg self = Some label ->
  label <> "" ->
  no_newline label ->
  fst (room_size self) <= Py.len label + 2 ->
  last (Py.split_lines (display self room)) = Some ("+[" +:+ label +:+ "]+") /\
  Py.len ("+[" +:+ label +:+ "]+") = Py.len label + 4.
Proof.
  intros Hl Hne Hnl Hw.
  assert (Hb : bottom_line self = "+[" +:+ label +:+ "]+").
  { unfold bottom_line. rewrite Hl.
    destruct (String.eqb_spec label "") as [| _]; [done |]. simpl.
    unfold Py.center.
    assert (Hlen : Py.len ("[" +:+ label +:+ "]") = Py.len label + 2).
    { rewrite !len_app. change (Py.len "[") with 1. change (Py.len "]") with 1. lia. }
    rewrite Hlen.
    destruct (Z.leb_spec (fst (room_size self)) (Py.len label + 2)); [| lia].
    rewrite !app_cons_str, !app_nil_str, !app_assoc_str.
    by rewrite !app_cons_str, !app_nil_str. }
  split.
  - rewrite split_lines_display, Hb.
    rewrite split_lines_no_newline; [apply last_snoc |].
    repeat apply no_newline_app; try done;
      repeat (apply no_newline_cons; split; [discriminate |]);
      apply no_newline_empty.
  - rewrite !len_app. change (Py.len "+[") with 2. change (Py.len "]+") with 2. lia.
Qed.

Lemma label_is_never_cut_witness :
  last (Py.split_lines (display (mkRandomArt (Some "SHA3-512") (5, 2) (2, 1)) ∅))
  = Some "+[SHA3-512]+".
Proof.
  assert (Hnl : no_newline "SHA3-512").
  { repeat (apply no_newline_cons; split; [discriminate |]).
    apply no_newline_empty. }
  exact (proj1 (label_is_never_cut (mkRandomArt (Some "SHA3-512") (5, 2) (2, 1)) ∅
                  "SHA3-512" eq_refl ltac:(discriminate) Hnl
                  ltac:(vm_compute; discriminate))).
Defined.

(** ** The rendered text: characters *)

Lemma in_str_nil (c : ascii) : ~ in_str c "".
Proof. by intros [n Hn]. Qed.

Lemma in_str_cons (c d : ascii) (s : string) :
  in_str c (String d s) <-> c = d \/ in_str c s.
Proof.
  split.
  - intros [[|n] Hn]; simpl in Hn; [left; congruence | right; by exists n].
  - intros [-> | [n Hn]]; [by exists 0%nat | by exists (S n)].
Qed.

Lemma in_str_app (c : ascii) (s t : string) :
  in_str c (s +:+ t) <-> in_str c s \/ in_str c t.
Proof.
  induction s as [|d s IH].
  - rewrite app_nil_str. split; [by right | intros [H | H]; [| done]].
    by apply in_str_nil in H.
  - rewrite app_cons_str, !in_str_cons, IH. tauto.
Qed.

Lemma in_str_cat (c : ascii) (l : list string) :
  in_str c (cat l) -> exists s, s ∈ l /\ in_str c s.
Proof.
  induction l as [|s l IH]; simpl.
  - intros H. by apply in_str_nil in H.
  - rewrite in_str_app. intros [H | H].
    + exists s. split; [apply list_elem_of_here | done].
    + destruct (IH H) as (s' & Hin & Hs'). exists s'.
      split; [by apply list_elem_of_further | done].
Qed.

Lemma in_str_str_mul (c d : ascii) (n : Z) : in_str c (Py.str_mul d n) -> c = d.
Proof.
  unfold Py.str_mul. induction (Z.to_nat n) as [|k IH]; simpl.
  - intros H. by apply in_str_nil in H.
  - rewrite in_str_cons. intros [-> | H]; auto.
Qed.

Ltac solve_in_str :=
  solve [repeat (apply in_str_cons; first [by left | right])].

Lemma glyph_in_alphabet (coins : Z) (c : ascii) :
  in_str c (get_coin_sym coins) -> in_str c display_alphabet.
Proof.
  rewrite get_coin_sym_table.
  destruct (decide (0 <= coins <= 16)) as [H | H].
  - assert (Hc : coins ∈ seqZ 0 17) by (apply elem_of_seqZ; lia).
    revert Hc. generalize coins.
    apply (Forall_forall
             (fun z => in_str c (glyph_table z) -> in_str c display_alphabet)).
    repeat (constructor;
            [simpl; rewrite in_str_cons; intros [-> | Hn];
             [unfold display_alphabet; solve_in_str | by apply in_str_nil in Hn] |]).
    constructor.
  - rewrite glyph_table_outside by done.
    rewrite in_str_cons. intros [-> | Hn]; [| by apply in_str_nil in Hn].
    unfold display_alphabet. solve_in_str.
Qed.

Lemma in_str_center (c : ascii) (s : string) (width : Z) :
  in_str c (Py.center s width "-") -> c = "-"%char \/ in_str c s.
Proof.
  unfold Py.center. case_match; [by right |].
  rewrite !in_str_app. intros [Hc | [Hc | Hc]]; [left | by right | left];
    by apply in_str_str_mul in Hc.
Qed.

Lemma in_str_border (c : ascii) (width : Z) :
  in_str c (border width) -> in_str c display_alphabet.
Proof.
  unfold border. rewrite !in_str_app, !in_str_cons.
  intros [[-> | H] | [H | [-> | H]]];
    try (by apply in_str_nil in H);
    try (apply in_str_str_mul in H as ->);
    unfold display_alphabet; solve_in_str.
Qed.

(** X12. Every character of the rendered text is a newline, one of the
    border characters ['+'], ['-'], ['|'], one of the eighteen glyphs, or,
    when there is a label, a bracket or a character of the label. *)
Theorem display_characters (self : RandomArt) (room : gmap (Z * Z) Z)
    (c : ascii) :
  in_str c (display self room) ->
  c = Py.newline \/
  in_str c display_alphabet \/
  exists label,
    hashalg self = Some label /\ label <> "" /\ in_str c ("[" +:+ label +:+ "]").
Proof.
  rewrite display_unfold, in_str_app. intros [H | H].
  - apply in_str_cat in H as (l & Hl & Hc).
    apply list_elem_of_fmap in Hl as (line & -> & Hline).
    unfold end_line in Hc. rewrite in_str_app, in_str_cons in Hc.
    destruct Hc as [Hc | [-> | Hc]]; [| by left | by apply in_str_nil in Hc].
    right; left. unfold upper_lines in Hline.
    apply elem_of_cons in Hline as [-> | Hline]; [by apply in_str_border in Hc |].
    apply list_elem_of_fmap in Hline as (y & -> & _).
    unfold body_row in Hc. rewrite !in_str_app, !in_str_cons in Hc.
    destruct Hc as [[-> | Hc] | [Hc | [-> | Hc]]];
      try (by apply in_str_nil in Hc);
      try (unfold display_alphabet; solve_in_str).
    apply in_str_cat in Hc as (g & Hg & Hc).
    apply list_elem_of_fmap in Hg as (x & -> & _).
    by apply glyph_in_alphabet in Hc.
  - unfold bottom_line in H. destruct (hashalg self) as [label|] eqn:El;
      [| right; left; by apply in_str_border in H].
    destruct (String.eqb_spec label "") as [-> | Hne]; simpl in H;
      [right; left; by apply in_str_border in H |].
    rewrite !in_str_app, !in_str_cons in H.
    destruct H as [[-> | H] | [H | [-> | H]]];
      try (by apply in_str_nil in H);
      try (right; left; unfold display_alphabet; solve_in_str).
    apply in_str_center in H as [-> | H];
      [right; left; unfold display_alphabet; solve_in_str |].
    right; right. by exists label.
Qed.

Lemma display_characters_witness :
  "E"%char = Py.newline \/
  in_str "E" display_alphabet \/
  exists label,
    hashalg (mkRandomArt None (3, 1) (1, 0)) = Some label /\ label <> "" /\
    in_str "E" ("[" +:+ label +:+ "]").
Proof.
  apply (display_characters (mkRandomArt None (3, 1) (1, 0)) {[ (1, 0) := 16 ]}).
  exists 8%nat. vm_compute. reflexivity.
Defined.

(** ** The rendered text: rooms without cells *)

Lemma len_border_any (width : Z) : Py.len (border width) = Z.max 0 width + 2.
Proof.
  unfold border. rewrite !len_app, len_str_mul. change (Py.len "+") with 1. lia.
Qed.

Lemma len_body_row_any (self : RandomArt) (room : gmap (Z * Z) Z) (y : Z) :
  Py.len (body_row self room y) = Z.max 0 (fst (room_size self)) + 2.
Proof.
  unfold body_row. rewrite !len_app. unfold Py.len at 2.
  rewrite (length_cat_uniform _ 1) by apply glyphs_uniform.
  rewrite length_map. unfold Py.range. rewrite length_seqZ.
  change (Py.len "|") with 1. lia.
Qed.

(** X13. Without a label, and for a width in the index range of string
    repetition, the text has its shape also when a dimension is not
    positive: max(0, height) + 2 lines of max(0, width) + 2 characters each;
    a room without rows is rendered as the two borders alone. *)
Theorem display_shape_any_size (self : RandomArt) (room : gmap (Z * Z) Z) :
  unlabelled self ->
  - index_max - 1 <= fst (room_size self) <= index_max ->
  let w := fst (room_size self) in
  let h := snd (room_size self) in
  let lines := Py.split_lines (display self room) in
  Z.of_nat (length lines) = Z.max 0 h + 2 /\
  Forall (fun l => Py.len l = Z.max 0 w + 2) lines /\
  (h <= 0 -> lines = [border w; border w]).
Proof.
  intros Hu _ w h lines. subst lines. rewrite split_lines_display.
  rewrite (bottom_line_unlabelled _ Hu).
  rewrite (split_lines_no_newline _ (no_newline_border _)).
  split; [| split].
  - rewrite length_app, length_upper_lines. simpl. fold h. lia.
  - apply Forall_app. split; [| repeat constructor; apply len_border_any].
    constructor; [apply len_border_any |].
    apply Forall_map, Forall_forall. intros y _. apply len_body_row_any.
  - intros Hh. unfold upper_lines, Py.range. fold h w.
    by rewrite seqZ_nil by done.
Qed.

Lemma display_shape_any_size_witness :
  Py.split_lines (display (mkRandomArt None (-3, -2) (-2, -1)) ∅) = ["++"; "++"].
Proof.
  assert (Hu : unlabelled (mkRandomArt None (-3, -2) (-2, -1))) by (by left).
  destruct (display_shape_any_size (mkRandomArt None (-3, -2) (-2, -1)) ∅ Hu
              ltac:(unfold index_max; simpl; lia))
    as (_ & _ & H).
  apply H. simpl. lia.
Defined.

(** ** Glyphs *)

Lemma glyph_table_inj (a b : Z) :
  glyph_table a = glyph_table b ->
  a = b \/ (~ (0 <= a <= 16) /\ ~ (0 <= b <= 16)).
Proof.
  assert (Hin : forallb (fun a => forallb (fun b =>
      implb (String.eqb (glyph_table a) (glyph_table b)) (a =? b))
      (seqZ 0 17)) (seqZ 0 17) = true) by (vm_compute; reflexivity).
  assert (Hout : forallb (fun a => negb (String.eqb (glyph_table a) "!"))
      (seqZ 0 17) = true) by (vm_compute; reflexivity).
  rewrite forallb_Forall, Forall_forall in Hin, Hout.
  assert (Hbang : forall a, 0 <= a <= 16 -> glyph_table a <> "!").
  { intros z Hz Heq. specialize (Hout z ltac:(apply elem_of_seqZ; lia)).
    rewrite Heq in Hout. done. }
  intros Heq.
  destruct (decide (0 <= a <= 16)) as [Ha | Ha],
           (decide (0 <= b <= 16)) as [Hb | Hb].
  - left. specialize (Hin a ltac:(apply elem_of_seqZ; lia)).
    rewrite forallb_Forall, Forall_forall in Hin.
    specialize (Hin b ltac:(apply elem_of_seqZ; lia)).
    rewrite Heq, String.eqb_refl in Hin. simpl in Hin. lia.
  - rewrite (glyph_table_outside b Hb) in Heq. by apply Hbang in Heq.
  - rewrite (glyph_table_outside a Ha) in Heq. symmetry in Heq.
    by apply Hbang in Heq.
  - by right.
Qed.

(** X14. Two counts are shown by the same glyph exactly when they are equal
    or both outside 0..16: the seventeen glyphs of the table differ from one
    another and from the fallback ['!']. *)
Theorem glyphs_are_distinct (a b : Z) :
  get_coin_sym a = get_coin_sym b <->
  a = b \/ (~ (0 <= a <= 16) /\ ~ (0 <= b <= 16)).
Proof.
  rewrite !get_coin_sym_table. split; [apply glyph_table_inj |].
  intros [-> | [Ha Hb]]; [done |]. by rewrite !glyph_table_outside.
Qed.

Lemma glyphs_are_distinct_witness :
  get_coin_sym 17 = get_coin_sym (-4) /\ get_coin_sym 15 <> get_coin_sym 16.
Proof.
  split.
  - apply (proj2 (glyphs_are_distinct 17 (-4))). right. lia.
  - intros H. apply (proj1 (glyphs_are_distinct 15 16)) in H. lia.
Defined.

Lemma glyph_blank (v : Z) : get_coin_sym v = " " <-> v = 0.
Proof.
  rewrite get_coin_sym_table. split; [| by intros ->].
  intros H. destruct (glyph_table_inj v 0 H) as [-> | [_ H0]]; [done | lia].
Qed.

(** X15. In the text rendered from the room [get_room] returns, a cell of
    the room is blank exactly when it is neither the start cell nor a cell
    the walk stood on. *)
Theorem blank_iff_unvisited (self : RandomArt) (hex_string : string)
    (directions : list Move) (room : gmap (Z * Z) Z) (p : Z * Z) :
  hex_to_dirs hex_string = Ok directions ->
  get_room self hex_string = Ok room ->
  in_room self p ->
  (cell_char (fst (room_size self)) (display self room) (fst p) (snd p)
   = Some " "%char
   <-> p <> start self /\ p ∉ positions self (start self) directions).
Proof.
  intros Hd Hroom Hin.
  destruct (get_room_entries self hex_string room Hroom)
    as (ds & Hds & Hdom & _ & Hpos).
  assert (ds = directions) as -> by congruence.
  destruct (get_coin_sym_char (counter_get room p)) as (c & Hc & _).
  rewrite (cell_shows self room p c Hin Hc).
  assert (Hnone : room !! p = None <->
                  p <> start self /\ p ∉ positions self (start self) directions).
  { rewrite eq_None_not_Some, Hdom. tauto. }
  rewrite <- Hnone. split.
  - intros [= ->]. apply glyph_blank in Hc. unfold counter_get in Hc.
    destruct (room !! p) as [v|] eqn:E; [| done].
    simpl in Hc. subst v. specialize (Hpos p 0 E). lia.
  - intros E. unfold counter_get in Hc. rewrite E in Hc. simpl in Hc.
    change (get_coin_sym 0) with (String " " "") in Hc. congruence.
Qed.

Lemma blank_iff_unvisited_witness :
  exists room,
    get_room (mkRandomArt None (17, 9) (8, 4)) "00" = Ok room /\
    cell_char 17 (display (mkRandomArt None (17, 9) (8, 4)) room) 9 5
    = Some " "%char.
Proof.
  set (self := mkRandomArt None (17, 9) (8, 4)).
  assert (Hd : hex_to_dirs "00" = Ok [NW; NW; NW; NW]) by (vm_compute; reflexivity).
  destruct (get_room self "00") as [room | e] eqn:E; [| by vm_compute in E].
  exists room. split; [done |].
  assert (Hin : in_room self (9, 5)) by (unfold in_room; simpl; lia).
  apply (proj2 (blank_iff_unvisited self "00" _ room (9, 5) Hd E Hin)).
  split; [by intros [=] |]. vm_compute.
  intros H. repeat (apply elem_of_cons in H as [[=] | H]). by apply elem_of_nil in H.
Defined.

(** ** Construction: the default start *)

(** X16. Without an explicit start, [__init__] puts the start at
    (width // 2, height // 2); this cell lies in the room exactly when both
    dimensions are at least 1, and then it is the middle: on each axis the
    cells before it are as many as the cells after it, or one more. *)
Theorem default_start_is_centre (label : option string) (size : Z * Z) :
  exists self,
    __init__ label size None = Ok self /\
    room_size self = size /\
    (in_room self (start self) <-> 1 <= fst size /\ 1 <= snd size) /\
    (1 <= fst size ->
     0 <= fst (start self) - (fst size - 1 - fst (start self)) <= 1) /\
    (1 <= snd size ->
     0 <= snd (start self) - (snd size - 1 - snd (start self)) <= 1).
Proof.
  eexists. split; [reflexivity |]. split; [reflexivity |].
  destruct size as [w h]. unfold in_room. simpl.
  pose proof (Z.div_mod w 2 ltac:(lia)) as Hw.
  pose proof (Z.mod_pos_bound w 2 ltac:(lia)) as Hwm.
  pose proof (Z.div_mod h 2 ltac:(lia)) as Hh.
  pose proof (Z.mod_pos_bound h 2 ltac:(lia)) as Hhm.
  repeat split; lia.
Qed.

Lemma default_start_is_centre_witness :
  exists self,
    __init__ None (31, 15) None = Ok self /\ in_room self (start self).
Proof.
  destruct (default_start_is_centre None (31, 15)) as (self & Hi & _ & Hin & _).
  exists self. split; [exact Hi |]. apply Hin. simpl. lia.
Defined.

(** ** From the fingerprint to the text *)

Lemma display_lines_fit (self : RandomArt) (room : gmap (Z * Z) Z) :
  0 <= fst (room_size self) ->
  label_fits self ->
  Z.of_nat (length (Py.split_lines (display self room)))
  = Z.max 0 (snd (room_size self)) + 2 /\
  Forall (fun l => Py.len l = fst (room_size self) + 2)
    (Py.split_lines (display self room)).
Proof.
  intros Hw Hfit. rewrite split_lines_display.
  destruct (bottom_line_fits self Hw Hfit) as [Hlen Hnl].
  rewrite (split_lines_no_newline _ Hnl). split.
  - rewrite length_app, length_upper_lines. simpl. lia.
  - apply Forall_app. split; [by apply upper_lines_len |]. by repeat constructor.
Qed.

Lemma walk_end_in_room (self : RandomArt) (directions : list Move) :
  1 <= fst (room_size self) -> 1 <= snd (room_size self) ->
  in_room self (start self) ->
  in_room self (snd (walk self directions)).
Proof.
  intros Hw Hh Hs. destruct directions as [|d ds]; [done |].
  pose proof (positions_in_room self (start self) (d :: ds) Hw Hh) as Hall.
  rewrite Forall_forall in Hall. apply Hall. unfold walk.
  by apply fold_walk_end_in.
Qed.

(** X17. For a valid hex string, a start cell in the room and a label that
    fits, [__call__] returns the text of the room [get_room] built: height
    + 2 lines of width + 2 characters in which the cell where the walk ends
    (the last of its positions, or the start when there is no move) lies in
    the room and shows ['E'], and the start cell shows ['S'], or ['E'] when
    the walk ends on it. *)
Theorem call_renders (self : RandomArt) (hex_string : string) :
  valid_hex hex_string ->
  in_room self (start self) ->
  label_fits self ->
  let w := fst (room_size self) in
  let h := snd (room_size self) in
  exists directions room text,
    hex_to_dirs hex_string = Ok directions /\
    let finish :=
      default (start self) (last (positions self (start self) directions)) in
    get_room_end self hex_string = Ok (room, finish) /\
    __call__ self hex_string = Ok text /\
    text = display self room /\
    Z.of_nat (length (Py.split_lines text)) = h + 2 /\
    Forall (fun l => Py.len l = w + 2) (Py.split_lines text) /\
    in_room self finish /\
    cell_char w text (fst finish) (snd finish) = Some "E"%char /\
    cell_char w text (fst (start self)) (snd (start self))
    = Some (if decide (start self = finish) then "E"%char else "S"%char).
Proof.
  intros Hv Hs Hfit w h.
  destruct (valid_hex_decodes _ Hv) as (ds & _ & Hds & _).
  pose proof (get_room_end_ok self _ _ Hds) as Hend.
  pose proof (get_room_ok self _ _ Hds) as Hroom.
  rewrite (walk_end self ds) in Hend, Hroom.
  pose proof (walk_end_in_room self ds) as Hfin. rewrite (walk_end self ds) in Hfin.
  set (finish := default (start self) (last (positions self (start self) ds))) in *.
  set (room := <[finish := 16]> (<[start self := 15]> (fst (walk self ds)))) in *.
  assert (Hwh : 1 <= w /\ 1 <= h) by (unfold in_room in Hs; lia).
  destruct Hwh as [Hw Hh].
  exists ds, room, (display self room).
  destruct (display_lines_fit self room ltac:(fold w; lia) Hfit) as [Hn Hall].
  split; [exact Hds |]. split; [exact Hend |].
  split; [unfold __call__; by rewrite Hroom |]. split; [reflexivity |].
  split; [fold h in Hn; lia |]. split; [exact Hall |].
  specialize (Hfin Hw Hh Hs).
  split; [exact Hfin |]. split.
  - apply cell_shows; [done |]. unfold counter_get, room.
    by rewrite lookup_insert_eq.
  - apply cell_shows; [done |]. unfold counter_get, room.
    case_decide as E.
    + rewrite E. by rewrite lookup_insert_eq.
    + rewrite lookup_insert_ne by done. by rewrite lookup_insert_eq.
Qed.

Lemma call_renders_witness :
  let self := mkRandomArt (Some "MD5") (17, 9) (8, 4) in
  exists directions room text,
    hex_to_dirs "fc94b0c1e5b0987c5843997697ee9fb7" = Ok directions /\
    get_room_end self "fc94b0c1e5b0987c5843997697ee9fb7"
    = Ok (room, default (8, 4) (last (positions self (8, 4) directions))) /\
    __call__ self "fc94b0c1e5b0987c5843997697ee9fb7" = Ok text /\
    Z.of_nat (length (Py.split_lines text)) = 11.
Proof.
  intros self.
  assert (Hv : valid_hex "fc94b0c1e5b0987c5843997697ee9fb7") by (split; reflexivity).
  assert (Hs : in_room self (start self)) by (unfold in_room; simpl; lia).
  assert (Hfit : label_fits self).
  { right. split; [vm_compute; discriminate |].
    repeat (apply no_newline_cons; split; [discriminate |]).
    apply no_newline_empty. }
  destruct (call_renders self _ Hv Hs Hfit)
    as (ds & room & text & Hds & Hend & Hc & _ & Hn & _).
  exists ds, room, text. split; [exact Hds |]. split; [exact Hend |].
  split; [exact Hc | exact Hn].
Defined.

(** ** A longer fingerprint continues the walk *)

Lemma positions_app (self : RandomArt) (cur : Z * Z) (d1 d2 : list Move) :
  positions self cur (d1 ++ d2)
  = positions self cur d1
    ++ positions self (default cur (last (positions self cur d1))) d2.
Proof.
  revert cur. induction d1 as [|d d1 IH]; intros cur; [done |].
  simpl. rewrite IH. do 2 f_equal. rewrite last_cons. by destruct (last _).
Qed.

(** X18. Appending hex digits continues the walk: when both strings decode,
    the positions of the concatenation are the positions of the first
    string followed by those of the second walked from where the first
    ended, and each counter is the counter after the first string plus the
    visits made by the second. *)
Theorem walk_continues (self : RandomArt) (s1 s2 : string) (d1 d2 : list Move) :
  hex_to_dirs s1 = Ok d1 ->
  hex_to_dirs s2 = Ok d2 ->
  let mid := snd (walk self d1) in
  hex_to_dirs (s1 +:+ s2) = Ok (d1 ++ d2) /\
  positions self (start self) (d1 ++ d2)
  = positions self (start self) d1 ++ positions self mid d2 /\
  snd (walk self (d1 ++ d2)) = default mid (last (positions self mid d2)) /\
  forall p,
    counter_get (fst (walk self (d1 ++ d2))) p
    = counter_get (fst (walk self d1)) p + occurrences p (positions self mid d2).
Proof.
  intros H1 H2 mid. split; [by apply decode_app |].
  assert (Hmid : mid = default (start self)
                         (last (positions self (start self) d1)))
    by apply walk_end.
  split; [rewrite Hmid; apply positions_app |]. split.
  - unfold walk. rewrite fold_left_app.
    destruct (fold_left (walk_step self) d1 (∅, start self)) as [room1 p1] eqn:E.
    assert (p1 = mid) as -> by (unfold mid, walk; by rewrite E).
    apply fold_walk_end.
  - intros p. unfold walk. rewrite fold_left_app.
    destruct (fold_left (walk_step self) d1 (∅, start self)) as [room1 p1] eqn:E.
    assert (p1 = mid) as -> by (unfold mid, walk; by rewrite E).
    rewrite fold_walk_counts. reflexivity.
Qed.

Lemma walk_continues_witness :
  positions (mkRandomArt None (17, 9) (8, 4)) (8, 4) ([NW; NW; NW; NW] ++ [SE; SW; NE; NW])
  = [(7, 3); (6, 2); (5, 1); (4, 0)]
    ++ positions (mkRandomArt None (17, 9) (8, 4)) (4, 0) [SE; SW; NE; NW].
Proof.
  assert (H1 : hex_to_dirs "00" = Ok [NW; NW; NW; NW]) by (vm_compute; reflexivity).
  assert (H2 : hex_to_dirs "1b" = Ok [SE; SW; NE; NW]) by (vm_compute; reflexivity).
  exact (proj1 (proj2 (walk_continues (mkRandomArt None (17, 9) (8, 4))
                         "00" "1b" _ _ H1 H2))).
Defined.

(** ** The script *)

Lemma enumerate_from_length {A} (i : Z) (l : list A) :
  length (enumerate_from i l) = length l.
Proof.
  revert i. induction l as [|a l IH]; intros i; simpl; [done | by rewrite IH].
Qed.

Lemma enumerate_from_lookup {A} (i : Z) (l : list A) (k : nat) (a : A) :
  l !! k = Some a -> enumerate_from i l !! k = Some (i + Z.of_nat k, a).
Proof.
  revert i k. induction l as [|b l IH]; intros i k; [done |].
  destruct k as [|k]; simpl.
  - intros [= ->]. do 2 f_equal. lia.
  - intros H. rewrite (IH (i + 1) k H). do 2 f_equal. lia.
Qed.

(** X19. For every valid hex digest the script renders, with
    [RandomArt(None, (31, 15))], an art of 17 lines of 33 characters, and
    draws line [i] of it, and nothing else, at x = 0 and
    y = (i + 1) * font_size; the width and the height of the drawing are
    font_size times the length of a line, and times the number of lines,
    plus 10. *)
Theorem main_texts_fit (digest : string) :
  valid_hex digest ->
  exists r art texts,
    __init__ None (31, 15) None = Ok r /\
    __call__ r digest = Ok art /\
    main_texts digest = Ok texts /\
    length texts = length (Py.split_lines art) /\
    Z.of_nat (length texts) = 17 /\
    snd drawing_size = font_size * Z.of_nat (length texts) + 10 /\
    forall (i : nat) (line : string),
      Py.split_lines art !! i = Some line ->
      texts !! i = Some (line, (0, (Z.of_nat i + 1) * font_size)) /\
      Py.len line = 33 /\
      fst drawing_size = font_size * Py.len line + 10.
Proof.
  intros Hv.
  set (r := {| hashalg := None; room_size := (31, 15);
               start := (31 / 2, 15 / 2) |}).
  destruct (valid_hex_decodes _ Hv) as (ds & _ & Hds & _).
  pose proof (get_room_ok r _ _ Hds) as Hroom.
  set (room := <[snd (walk r ds) := 16]> (<[start r := 15]> (fst (walk r ds))))
    in Hroom.
  clearbody room.
  assert (Hcall : __call__ r digest = Ok (display r room))
    by (unfold __call__; by rewrite Hroom).
  assert (Hmain : main_texts digest
                  = Ok (map (fun '(i, line) => (line, (0, (i + 1) * font_size)))
                          (enumerate_from 0 (Py.split_lines (display r room))))).
  { unfold main_texts. change (__init__ None (31, 15) None) with (Ok r).
    unfold bind at 1. by rewrite Hcall. }
  assert (Hw : 0 <= fst (room_size r)) by (change (fst (room_size r)) with 31; lia).
  destruct (display_lines_fit r room Hw I) as [Hn Hall].
  change (snd (room_size r)) with 15 in Hn.
  change (fst (room_size r)) with 31 in Hall.
  exists r, (display r room). eexists.
  split; [reflexivity |]. split; [exact Hcall |]. split; [exact Hmain |].
  assert (Hlen : length (map (fun '(i, line) => (line, (0, (i + 1) * font_size)))
                          (enumerate_from 0 (Py.split_lines (display r room))))
                 = length (Py.split_lines (display r room)))
    by (by rewrite length_map, enumerate_from_length).
  split; [exact Hlen |]. split; [rewrite Hlen; lia |].
  split; [rewrite Hlen; unfold drawing_size, font_size; cbn [snd]; lia |].
  intros i line Hline.
  assert (Hl33 : Py.len line = 33).
  { rewrite Forall_forall in Hall. apply Hall.
    by apply (list_elem_of_lookup_2 _ i). }
  split; [| split; [exact Hl33 |]].
  - rewrite list_lookup_fmap, (enumerate_from_lookup 0 _ i line Hline).
    simpl. do 3 f_equal.
  - rewrite Hl33. reflexivity.
Qed.

Lemma main_texts_fit_witness :
  exists texts,
    main_texts "a69f73cca23a9ac5c8b567dc185a756e97c982164fe25859e0d1dcc1475c80a615b2123af1f5f94c11e3e9402c3ac558f500199d95b6d3e301758586281dcd26"
    = Ok texts /\
    Z.of_nat (length texts) = 17.
Proof.
  destruct (main_texts_fit
    "a69f73cca23a9ac5c8b567dc185a756e97c982164fe25859e0d1dcc1475c80a615b2123af1f5f94c11e3e9402c3ac558f500199d95b6d3e301758586281dcd26"
    ltac:(split; vm_compute; reflexivity)) as (r & art & texts & _ & _ & Ht & _ & Hn & _).
  exists texts. split; [exact Ht | exact Hn].
Defined.
